(** * Trading growth calculator: the trade ledger of [TradingCalculator]

    A shallow embedding of the calculation core of [src/app/page.tsx]
    (component [TradingCalculator]): [calculateTradeRow],
    [calculateNextRisk], [recalculateTrades] and the handlers
    [handleAddTrade], [handleDeleteTrade] and [handleUpdateTradeValue].

    A JavaScript [number] is an IEEE 754 binary64 value: it is modelled by
    Rocq's primitive [float], whose operations are the same binary64
    operations (round to nearest, ties to even).  [isNaN] is [is_nan],
    [isFinite] is [is_finite], [<=] and [<] are [<=?] and [<?], and the
    strict (in)equality of two numbers is [=?]. *)

From Stdlib Require Import Floats List Bool Ascii String Lia PeanoNat ZArith.
From Stdlib Require DecimalString.
Import ListNotations.

Set Warnings "-inexact-float".

Open Scope float_scope.

(** ** Data model *)

(** [type TradeOutcome = 'win' | 'partial win' | 'loss' | 'breakeven' | 'pending'] *)
Inductive TradeOutcome : Type :=
  | win
  | partial_win
  | loss
  | breakeven
  | pending.

(** [interface Trade].  The fields the user enters ([id], [riskPercentage],
    [outcome], [winMultiplier]) are always present.  The derived fields are
    absent ([undefined]) on the object [handleAddTrade] appends, until the
    next recalculation fills them in, so they are [option]s: [None] is
    JavaScript's [undefined]. *)
Record Trade : Type := mkTrade {
  id : string;
  tradeNumber : option nat;
  accountSize : option float;
  riskPercentage : float;
  riskAmount : option float;
  outcome : TradeOutcome;
  winMultiplier : float;
  floatingPL : option float;
  accountBalance : option float;
  distanceToTarget : option float;
  nextSuggestedRisk : option float
}.

(** The numbers the component derives from its settings: [initialBalance],
    [profitTarget], [defaultRiskPercentage] and [defaultWinMultiplier]. *)
Record Config : Type := mkConfig {
  initialBalance : float;
  profitTarget : float;
  defaultRiskPercentage : float;
  defaultWinMultiplier : float
}.

(** What a possibly absent number is worth in arithmetic and comparisons:
    JavaScript's ToNumber sends [undefined] to NaN. *)
Definition ToNumber (v : option float) : float :=
  match v with
  | Some x => x
  | None => nan
  end.

Definition isNaN (x : float) : bool := is_nan x.
Definition isFinite (x : float) : bool := is_finite x.

(** ** The calculation core *)

(** [calculateTradeRow(trade, previousBalance, target)]: the spread
    [...trade] keeps every field of [trade] that is not overwritten. *)
Definition calculateTradeRow (trade : Trade) (previousBalance target : float) : Trade :=
  let accountSize' := previousBalance in
  let riskPercentage' := riskPercentage trade in
  let winMultiplier' := winMultiplier trade in
  let outcome' := outcome trade in
  let riskAmount' := accountSize' * (riskPercentage' / 100) in
  let floatingPL' :=
    match outcome' with
    | win => riskAmount' * winMultiplier'
    | loss => - riskAmount'
    | partial_win => (riskAmount' * winMultiplier') / 2
    | _ => 0
    end in
  let accountBalance' := accountSize' + floatingPL' in
  let distanceToTarget' := target - accountBalance' in
  {| id := id trade;
     tradeNumber := tradeNumber trade;
     accountSize := Some accountSize';
     riskPercentage := riskPercentage trade;
     riskAmount := Some (if isNaN riskAmount' then 0 else riskAmount');
     outcome := outcome trade;
     winMultiplier := winMultiplier trade;
     floatingPL := Some (if isNaN floatingPL' then 0 else floatingPL');
     accountBalance := Some (if isNaN accountBalance' then accountSize' else accountBalance');
     distanceToTarget :=
       Some (if isNaN distanceToTarget' then target - accountSize' else distanceToTarget');
     nextSuggestedRisk := nextSuggestedRisk trade |}.

(** [calculateNextRisk(currentBal, target, multiplier)] *)
Definition calculateNextRisk (currentBal target multiplier : float) : option float :=
  let remainingNeeded := target - currentBal in
  if (remainingNeeded <=? 0) || (currentBal <=? 0) || (multiplier <=? 0) then None
  else
    let risk := (remainingNeeded / (currentBal * multiplier)) * 100 in
    if isNaN risk || negb (isFinite risk) then None else Some risk.

(** The callback [recalculateTrades] passes to [map]: from the value of the
    mutable variable [cumulativeBalance], the array element and its index,
    the element of the result and the new value of [cumulativeBalance]. *)
Definition recalculateCallback (cfg : Config) (cumulativeBalance : float)
    (trade : Trade) (index : nat) : Trade * float :=
  let calculatedCoreTrade := calculateTradeRow trade cumulativeBalance (profitTarget cfg) in
  let cumulativeBalance' := ToNumber (accountBalance calculatedCoreTrade) in
  let nextRisk :=
    calculateNextRisk cumulativeBalance' (profitTarget cfg) (defaultWinMultiplier cfg) in
  ({| id := id calculatedCoreTrade;
      tradeNumber := Some (index + 1)%nat;
      accountSize := accountSize calculatedCoreTrade;
      riskPercentage := riskPercentage calculatedCoreTrade;
      riskAmount := riskAmount calculatedCoreTrade;
      outcome := outcome calculatedCoreTrade;
      winMultiplier := winMultiplier calculatedCoreTrade;
      floatingPL := floatingPL calculatedCoreTrade;
      accountBalance := accountBalance calculatedCoreTrade;
      distanceToTarget := distanceToTarget calculatedCoreTrade;
      nextSuggestedRisk := nextRisk |},
   cumulativeBalance').

(** [currentTrades.map(callback)] from position [index] on, the variable
    [cumulativeBalance] threaded through the calls in array order. *)
Fixpoint recalculateFrom (cfg : Config) (cumulativeBalance : float) (index : nat)
    (currentTrades : list Trade) : list Trade :=
  match currentTrades with
  | [] => []
  | trade :: rest =>
      let '(row, cumulativeBalance') :=
        recalculateCallback cfg cumulativeBalance trade index in
      row :: recalculateFrom cfg cumulativeBalance' (S index) rest
  end.

(** [recalculateTrades(currentTrades)] *)
Definition recalculateTrades (cfg : Config) (currentTrades : list Trade) : list Trade :=
  recalculateFrom cfg (initialBalance cfg) 0 currentTrades.

(** ** The handlers *)

(** The notices of [sonner]'s [toast]. *)
Inductive Toast : Type :=
  | toast_success (message : string)
  | toast_warning (message : string)
  | toast_info (message : string)
  | toast_error (message : string).

(** The two fields [handleUpdateTradeValue] edits. *)
Inductive ValueField : Type :=
  | field_riskPercentage
  | field_winMultiplier.

Definition getField (trade : Trade) (field : ValueField) : float :=
  match field with
  | field_riskPercentage => riskPercentage trade
  | field_winMultiplier => winMultiplier trade
  end.

(** [{ ...trade, [field]: numericValue }] *)
Definition setField (trade : Trade) (field : ValueField) (numericValue : float) : Trade :=
  match field with
  | field_riskPercentage =>
      {| id := id trade; tradeNumber := tradeNumber trade; accountSize := accountSize trade;
         riskPercentage := numericValue; riskAmount := riskAmount trade;
         outcome := outcome trade; winMultiplier := winMultiplier trade;
         floatingPL := floatingPL trade; accountBalance := accountBalance trade;
         distanceToTarget := distanceToTarget trade;
         nextSuggestedRisk := nextSuggestedRisk trade |}
  | field_winMultiplier =>
      {| id := id trade; tradeNumber := tradeNumber trade; accountSize := accountSize trade;
         riskPercentage := riskPercentage trade; riskAmount := riskAmount trade;
         outcome := outcome trade; winMultiplier := numericValue;
         floatingPL := floatingPL trade; accountBalance := accountBalance trade;
         distanceToTarget := distanceToTarget trade;
         nextSuggestedRisk := nextSuggestedRisk trade |}
  end.

Definition fieldLabel (field : ValueField) : string :=
  match field with
  | field_riskPercentage => "Risk %"
  | field_winMultiplier => "Win Multiplier"
  end.

(** The decimal text of an array length in a template string. *)
Definition showNat (n : nat) : string :=
  DecimalString.NilZero.string_of_uint (Nat.to_uint n).

(** [trades.length > 0 ? trades[trades.length - 1].accountBalance : initialBalance] *)
Definition lastBalance (cfg : Config) (trades : list Trade) : float :=
  match trades with
  | [] => initialBalance cfg
  | first :: rest => ToNumber (accountBalance (last rest first))
  end.

(** [handleAddTrade()]; [newId] is the value [uuidv4()] returns.  The result
    is the new state of [trades] and the notices shown. *)
Definition handleAddTrade (cfg : Config) (newId : string) (trades : list Trade)
    : list Trade * list Toast :=
  let currentRisk :=
    calculateNextRisk (lastBalance cfg trades) (profitTarget cfg) (defaultWinMultiplier cfg) in
  let riskToUse :=
    match currentRisk with
    | Some r => if (0 <? r) && (r <? 50) then r else defaultRiskPercentage cfg
    | None => defaultRiskPercentage cfg
    end in
  let newTradeInput :=
    {| id := newId; tradeNumber := None; accountSize := None;
       riskPercentage := riskToUse; riskAmount := None;
       outcome := pending; winMultiplier := defaultWinMultiplier cfg;
       floatingPL := None; accountBalance := None; distanceToTarget := None;
       nextSuggestedRisk := None |} in
  ((trades ++ [newTradeInput])%list,
   [toast_success ("Trade #" ++ showNat (List.length trades + 1)%nat ++ " added.")%string]).

(** [handleDeleteTrade(id)] *)
Definition handleDeleteTrade (id' : string) (trades : list Trade) : list Trade * list Toast :=
  (filter (fun trade => negb (String.eqb (id trade) id')) trades,
   [toast_warning "Trade deleted and log recalculated."]).

(** The test of the [map] callback of [handleUpdateTradeValue]:
    [trade.id === id && trade[field] !== numericValue]. *)
Definition valueDiffers (id' : string) (field : ValueField) (numericValue : float)
    (trade : Trade) : bool :=
  String.eqb (id trade) id' && negb (getField trade field =? numericValue).

Section EditBoundary.

(** JavaScript's global [parseFloat]: NaN when the text does not start with
    a number. *)
Variable parseFloat : string -> float.

(** [handleUpdateTradeValue(id, field, value)]; the result is the new state
    of [trades] and the notices shown. *)
Definition handleUpdateTradeValue (id' : string) (field : ValueField) (value : string)
    (trades : list Trade) : list Trade * list Toast :=
  let numericValue := parseFloat value in
  if isNaN numericValue || (numericValue <? 0) then
    (trades, [toast_error ("Invalid " ++ fieldLabel field ++ " value.")%string])
  else
    let valueChanged := existsb (valueDiffers id' field numericValue) trades in
    (map (fun trade =>
            if valueDiffers id' field numericValue trade
            then setField trade field numericValue
            else trade) trades,
     if valueChanged
     then [toast_info ("Trade " ++ fieldLabel field ++ " updated and log recalculated.")%string]
     else []).

End EditBoundary.

(** ** The rest of the component *)


Section Settings.

(** JavaScript's global [parseFloat], as in [handleUpdateTradeValue]. *)
Variable parseFloat : string -> float.




End Settings.

(** The [currentBalance] memo:
    [trades.length > 0 ? trades[trades.length - 1].accountBalance : initialBalance]. *)
Definition currentBalance (cfg : Config) (trades : list Trade) : float :=
  match trades with
  | [] => initialBalance cfg
  | first :: rest => ToNumber (accountBalance (last rest first))
  end.

(** The effect that keeps [currentSuggestedRisk]: [risk ?? 0]. *)
Definition currentSuggestedRisk (cfg : Config) (trades : list Trade) : float :=
  match calculateNextRisk (currentBalance cfg trades) (profitTarget cfg)
          (defaultWinMultiplier cfg) with
  | Some risk => risk
  | None => 0
  end.

(** [totalPL] and [distanceToTargetFinal] of the table footer. *)
Definition totalPL (cfg : Config) (trades : list Trade) : float :=
  currentBalance cfg trades - initialBalance cfg.

Definition distanceToTargetFinal (cfg : Config) (trades : list Trade) : float :=
  profitTarget cfg - currentBalance cfg trades.

Section Formatting.

(** [amount.toFixed(3)] *)
Variable toFixed3 : float -> string.

(** [formatPercentagePrecise(amount)] *)
Definition formatPercentagePrecise (amount : option float) : string :=
  match amount with
  | None => "-"
  | Some a =>
      if isNaN a || negb (isFinite a) || (a <=? 0) then "-"
      else (toFixed3 a ++ "%")%string
  end.

End Formatting.

Section RecalculationEffect.

(** [JSON.stringify] on the trade list. *)
Variable stringify : list Trade -> string.

(** The effect that recalculates the ledger, once the component has mounted:
    the state of [trades] after it has run once on the state [trades]. *)
Definition recalculationEffect (cfg : Config) (trades : list Trade) : list Trade :=
  let recalculated := recalculateTrades cfg trades in
  if negb (String.eqb (stringify recalculated) (stringify trades)) then recalculated
  else trades.

End RecalculationEffect.

(** [===] on two outcomes. *)
Definition outcome_eqb (a b : TradeOutcome) : bool :=
  match a, b with
  | win, win => true
  | partial_win, partial_win => true
  | loss, loss => true
  | breakeven, breakeven => true
  | pending, pending => true
  | _, _ => false
  end.

(** [{ ...trade, outcome: newOutcome }] *)
Definition setOutcome (trade : Trade) (newOutcome : TradeOutcome) : Trade :=
  {| id := id trade; tradeNumber := tradeNumber trade; accountSize := accountSize trade;
     riskPercentage := riskPercentage trade; riskAmount := riskAmount trade;
     outcome := newOutcome; winMultiplier := winMultiplier trade;
     floatingPL := floatingPL trade; accountBalance := accountBalance trade;
     distanceToTarget := distanceToTarget trade;
     nextSuggestedRisk := nextSuggestedRisk trade |}.

(** The test of the [map] callback of [handleUpdateTradeOutcome]:
    [trade.id === id && trade.outcome !== newOutcome]. *)
Definition outcomeDiffers (id' : string) (newOutcome : TradeOutcome) (trade : Trade) : bool :=
  String.eqb (id trade) id' && negb (outcome_eqb (outcome trade) newOutcome).

(** [handleUpdateTradeOutcome(id, newOutcome)] *)
Definition handleUpdateTradeOutcome (id' : string) (newOutcome : TradeOutcome)
    (trades : list Trade) : list Trade * list Toast :=
  let outcomeChanged := existsb (outcomeDiffers id' newOutcome) trades in
  (map (fun trade =>
          if outcomeDiffers id' newOutcome trade then setOutcome trade newOutcome
          else trade) trades,
   if outcomeChanged then [toast_info "Trade outcome updated and log recalculated."]
   else []).

(** [handleClearTrades()] *)
Definition handleClearTrades (trades : list Trade) : list Trade * list Toast :=
  ([], [toast_success "All trades cleared."]).

(** The character class [[0-9]]. *)
Definition isDigit (c : Ascii.ascii) : bool :=
  (48 <=? Ascii.nat_of_ascii c)%nat && (Ascii.nat_of_ascii c <=? 57)%nat.

(** What is left of a text after the longest run of digits at its start:
    the greedy [[0-9]*]. *)
Fixpoint skipDigits (text : string) : string :=
  match text with
  | EmptyString => EmptyString
  | String c rest => if isDigit c then skipDigits rest else text
  end.

(** What is left after an optional dot: [\.?]. *)
Definition skipDot (text : string) : string :=
  match text with
  | String c rest => if Ascii.eqb c "."%char then rest else text
  | EmptyString => EmptyString
  end.

(** [/^[0-9]*\.?[0-9]*$/.test(value)]: digits and dots being different
    characters, the greedy match is the only one. *)
Definition matchesPositiveNumber (value : string) : bool :=
  match skipDigits (skipDot (skipDigits value)) with
  | EmptyString => true
  | String _ _ => false
  end.

(** [handlePositiveNumberChange(setter)] on an input event of value [value]:
    the text the setter's state holds afterwards, [current] being the text
    it held before. *)
Definition handlePositiveNumberChange (current value : string) : string :=
  if String.eqb value "" || matchesPositiveNumber value then value else current.

(** A text of digits only. *)
Fixpoint allDigits (text : string) : bool :=
  match text with
  | EmptyString => true
  | String c rest => isDigit c && allDigits rest
  end.

(** Binary64 values whose sign bit is clear, NaN included. *)
Definition SFsign_clear (x : spec_float) : bool :=
  match x with
  | S754_zero s => negb s
  | S754_infinity s => negb s
  | S754_nan => true
  | S754_finite s _ _ => negb s
  end.

(** ** Definitions the statements use *)

(** The value of [cumulativeBalance] once the callback has run over [ts]. *)
Fixpoint runningBalance (cfg : Config) (cumulativeBalance : float) (ts : list Trade) : float :=
  match ts with
  | [] => cumulativeBalance
  | trade :: rest =>
      runningBalance cfg (snd (recalculateCallback cfg cumulativeBalance trade 0)) rest
  end.

(** The floating P/L as the specification words it: by outcome, from the
    risk amount and the win multiplier. *)
Definition statedFloatingPL (riskAmount' winMultiplier' : float) (o : TradeOutcome) : float :=
  match o with
  | win => riskAmount' * winMultiplier'
  | partial_win => riskAmount' * winMultiplier' / 2
  | loss => - riskAmount'
  | breakeven => 0
  | pending => 0
  end.

(** The formulas of the specification for the derived fields of one trade,
    read as they stand, from the running balance [balance]. *)
Definition fields_as_stated (cfg : Config) (trade row : Trade) (balance : float) : Prop :=
  let risk := balance * (riskPercentage trade / 100) in
  let pl := statedFloatingPL risk (winMultiplier trade) (outcome trade) in
  riskAmount row = Some risk
  /\ floatingPL row = Some pl
  /\ accountBalance row = Some (balance + pl)
  /\ distanceToTarget row = Some (profitTarget cfg - (balance + pl)).

(** The sign the specification gives the floating P/L of each outcome:
    above zero for a win or a partial win, below zero for a loss, zero for
    breakeven and pending. *)
Definition sign_as_stated (o : TradeOutcome) (pl : float) : bool :=
  match o with
  | win => 0 <? pl
  | partial_win => 0 <? pl
  | loss => pl <? 0
  | breakeven => pl =? 0
  | pending => pl =? 0
  end.

(** Binary64 values by sign, on the specification of the primitive floats.
    [SFnonneg]: a zero of either sign, a positive number, plus infinity, or
    NaN.  [SFnonpos]: the same with negative for positive. *)
Definition SFnonneg (x : spec_float) : bool :=
  match x with
  | S754_zero _ => true
  | S754_infinity s => negb s
  | S754_nan => true
  | S754_finite s _ _ => negb s
  end.

Definition SFnonpos (x : spec_float) : bool :=
  match x with
  | S754_zero _ => true
  | S754_infinity s => s
  | S754_nan => true
  | S754_finite s _ _ => s
  end.

Definition SFis_nan (x : spec_float) : bool :=
  match x with
  | S754_nan => true
  | _ => false
  end.

(** *** Sample data *)

Definition newTrade (id' : string) (riskPercentage' : float) (outcome' : TradeOutcome)
    (winMultiplier' : float) : Trade :=
  {| id := id'; tradeNumber := None; accountSize := None;
     riskPercentage := riskPercentage'; riskAmount := None; outcome := outcome';
     winMultiplier := winMultiplier'; floatingPL := None; accountBalance := None;
     distanceToTarget := None; nextSuggestedRisk := None |}.

(** The scenario of the specification: balance 10000, target 10800, one
    winning trade at 1% risk and multiplier 6.5. *)
Definition cfg0 : Config :=
  {| initialBalance := 10000; profitTarget := 10800;
     defaultRiskPercentage := 1.23; defaultWinMultiplier := 6.5 |}.

Definition trade0 : Trade := newTrade "a" 1 win 6.5.

(** A ledger of three trades. *)
Definition tradeA : Trade := newTrade "a" 1 win 6.5.
Definition tradeB : Trade := newTrade "b" 2 loss 3.
Definition tradeC : Trade := newTrade "c" 1.5 pending 6.5.
Definition ledger3 : list Trade := [tradeA; tradeB; tradeC].

(** A winning trade entered with a risk of 0%. *)
Definition tradeZeroRisk : Trade := newTrade "z" 0 win 6.5.

(** A balance of 1e308 with a winning trade at 10000% risk and multiplier 0:
    the risk amount overflows to infinity, and the floating P/L, infinity
    times 0, is NaN. *)
Definition cfgHuge : Config :=
  {| initialBalance := 1e308; profitTarget := 1.08e308;
     defaultRiskPercentage := 1.23; defaultWinMultiplier := 6.5 |}.

Definition tradeHuge : Trade := newTrade "a" 10000 win 0.

(** A stand-in for [parseFloat] on the texts of the examples. *)
Definition parseFloatSample (text : string) : float :=
  if String.eqb text "2.5" then 2.5
  else if String.eqb text "-1" then -1
  else nan.

(** * Binary64 arithmetic: the sign of a result *)

Lemma SFeqb_refl (x : spec_float) : SFeqb x x = negb (SFis_nan x).
Proof.
  destruct x as [s|s| |s m e]; try destruct s; try reflexivity;
    unfold SFeqb; cbn [SFcompare]; rewrite Z.compare_refl;
    rewrite (Pos.compare_cont_refl m Eq); reflexivity.
Qed.

Lemma is_nan_spec (x : float) : is_nan x = SFis_nan (Prim2SF x).
Proof.
  unfold is_nan. rewrite FloatAxioms.eqb_spec, SFeqb_refl. apply negb_involutive.
Qed.

Lemma Prim2SF_zero : Prim2SF 0 = S754_zero false.
Proof. reflexivity. Qed.

Lemma nonneg_or_nan_spec (x : float) :
  (0 <=? x) || is_nan x = SFnonneg (Prim2SF x).
Proof.
  rewrite is_nan_spec, FloatAxioms.leb_spec, Prim2SF_zero.
  destruct (Prim2SF x) as [s|s| |s m e]; try destruct s; reflexivity.
Qed.

Lemma nonpos_or_nan_spec (x : float) :
  (x <=? 0) || is_nan x = SFnonpos (Prim2SF x).
Proof.
  rewrite is_nan_spec, FloatAxioms.leb_spec, Prim2SF_zero.
  destruct (Prim2SF x) as [s|s| |s m e]; try destruct s; reflexivity.
Qed.

(** Rounding keeps the sign it is given. *)
Lemma binary_round_aux_sign (s : bool) (m e : Z) (l : location) :
  match binary_round_aux prec emax s m e l with
  | S754_zero s' => s' = s
  | S754_infinity s' => s' = s
  | S754_nan => True
  | S754_finite s' _ _ => s' = s
  end.
Proof.
  unfold binary_round_aux.
  destruct (shr_fexp prec emax m e l) as [mrs' e'].
  destruct (shr_fexp prec emax _ e' loc_Exact) as [mrs'' e''].
  destruct (shr_m mrs'') as [|p|p]; [reflexivity| |exact I].
  destruct (Z.leb e'' (emax - prec)); reflexivity.
Qed.

Lemma binary_round_aux_nonneg (m e : Z) (l : location) :
  SFnonneg (binary_round_aux prec emax false m e l) = true.
Proof.
  pose proof (binary_round_aux_sign false m e l) as H.
  destruct (binary_round_aux prec emax false m e l); try subst; reflexivity.
Qed.

Lemma binary_round_aux_nonpos (m e : Z) (l : location) :
  SFnonpos (binary_round_aux prec emax true m e l) = true.
Proof.
  pose proof (binary_round_aux_sign true m e l) as H.
  destruct (binary_round_aux prec emax true m e l); try subst; reflexivity.
Qed.

Lemma SFmul_nonneg (x y : spec_float) :
  SFnonneg x = true -> SFnonneg y = true -> SFnonneg (SF64mul x y) = true.
Proof.
  destruct x as [sx|sx| |sx mx ex], y as [sy|sy| |sy my ey];
    cbn [SFnonneg]; intros Hx Hy; try reflexivity;
    try (apply negb_true_iff in Hx); try (apply negb_true_iff in Hy); subst;
    try reflexivity.
  apply binary_round_aux_nonneg.
Qed.

(** Division by a positive number; a zero divisor would not do, [1 / -0]
    being minus infinity. *)
Lemma SFdiv_nonneg (x : spec_float) (my : positive) (ey : Z) :
  SFnonneg x = true -> SFnonneg (SF64div x (S754_finite false my ey)) = true.
Proof.
  destruct x as [sx|sx| |sx mx ex]; cbn [SFnonneg]; intros Hx; try reflexivity;
    try (apply negb_true_iff in Hx); subst; try reflexivity.
  unfold SF64div, SFdiv.
  destruct (SFdiv_core_binary prec emax (Z.pos mx) ex (Z.pos my) ey) as [[mz ez] lz].
  apply binary_round_aux_nonneg.
Qed.

Lemma SFopp_nonneg (x : spec_float) : SFnonneg x = true -> SFnonpos (SFopp x) = true.
Proof.
  destruct x as [s|s| |s m e]; cbn; try reflexivity; intros H;
    now apply negb_true_iff in H; subst.
Qed.
(** *** Subtraction of a larger number *)

Lemma iter_xO_pow (d m : positive) :
  Z.pos (Pos.iter xO m d) = (Z.pos m * 2 ^ Z.pos d)%Z.
Proof.
  induction d as [|d IH] using Pos.peano_ind.
  - cbn [Pos.iter]. lia.
  - rewrite Pos.iter_succ, Pos2Z.inj_succ, Z.pow_succ_r by lia.
    rewrite Pos2Z.inj_xO, IH. ring.
Qed.

Lemma shl_align_value (m : positive) (e e' : Z) :
  (e' <= e)%Z ->
  Z.pos (fst (shl_align m e e')) = (Z.pos m * 2 ^ (e - e'))%Z.
Proof.
  intros He. unfold shl_align.
  destruct (e' - e)%Z as [|d|d] eqn:E.
  - replace (e - e')%Z with 0%Z by lia. cbn [fst]. lia.
  - lia.
  - cbn [fst]. rewrite iter_xO_pow. f_equal. f_equal. lia.
Qed.

Lemma digits2_pos_size (m : positive) : digits2_pos m = Pos.size m.
Proof. induction m; cbn; congruence. Qed.

Lemma digits2_pos_gt (m : positive) : (Z.pos m < 2 ^ Z.pos (digits2_pos m))%Z.
Proof.
  rewrite digits2_pos_size. pose proof (Pos.size_gt m) as H.
  rewrite <- Pos2Z.inj_pow. lia.
Qed.

Lemma digits2_pos_le (m : positive) : (2 ^ Z.pos (digits2_pos m) <= 2 * Z.pos m)%Z.
Proof.
  rewrite digits2_pos_size. pose proof (Pos.size_le m) as H.
  rewrite <- Pos2Z.inj_pow. lia.
Qed.

(** Of two canonical positive binary64 numbers, the one of smaller exponent
    has the smaller aligned mantissa. *)
Lemma bounded_exponent_lt (m1 m2 : positive) (e1 e2 : Z) :
  bounded prec emax m1 e1 = true ->
  bounded prec emax m2 e2 = true ->
  (e1 < e2)%Z ->
  (Z.pos m1 < Z.pos m2 * 2 ^ (e2 - e1))%Z.
Proof.
  unfold bounded, canonical_mantissa, fexp, emin, prec, emax.
  intros H1 H2 Hlt.
  apply andb_true_iff in H1. destruct H1 as [H1 _].
  apply andb_true_iff in H2. destruct H2 as [H2 _].
  apply Z.eqb_eq in H1. apply Z.eqb_eq in H2.
  assert (D2 : Z.pos (digits2_pos m2) = 53%Z) by lia.
  assert (D1 : (Z.pos (digits2_pos m1) <= 53)%Z) by lia.
  pose proof (digits2_pos_gt m1) as G1.
  pose proof (digits2_pos_le m2) as L2. rewrite D2 in L2.
  assert (P1 : (2 ^ Z.pos (digits2_pos m1) <= 2 ^ 53)%Z)
    by (apply Z.pow_le_mono_r; lia).
  assert (P2 : (2 ^ 1 <= 2 ^ (e2 - e1))%Z) by (apply Z.pow_le_mono_r; lia).
  change (2 ^ 1)%Z with 2%Z in P2.
  nia.
Qed.

Lemma binary_normalize_nonpos (m e : Z) :
  (m <= 0)%Z -> SFnonpos (binary_normalize prec emax m e false) = true.
Proof.
  intros Hm. destruct m as [|p|p]; [reflexivity|lia|].
  unfold binary_normalize, binary_round.
  destruct (shl_align p e _) as [mz ez]. apply binary_round_aux_nonpos.
Qed.

(** The aligned mantissas of two canonical numbers of the same sign compare
    as the numbers do. *)
Lemma aligned_le (m1 m2 : positive) (e1 e2 : Z) :
  bounded prec emax m1 e1 = true ->
  bounded prec emax m2 e2 = true ->
  match Z.compare e1 e2 with
  | Lt => True
  | Eq => Pos.compare_cont Eq m1 m2 <> Gt
  | Gt => False
  end ->
  (Z.pos (fst (shl_align m1 e1 (Z.min e1 e2)))
   <= Z.pos (fst (shl_align m2 e2 (Z.min e1 e2))))%Z.
Proof.
  intros B1 B2 Hc.
  rewrite !shl_align_value by lia.
  destruct (Z.compare_spec e1 e2) as [E|E|E]; [| |contradiction].
  - subst e2. rewrite Z.min_id, Z.sub_diag. change (2 ^ 0)%Z with 1%Z.
    change (Pos.compare_cont Eq m1 m2) with (Pos.compare m1 m2) in Hc.
    assert (Hle : (m1 <= m2)%positive) by exact Hc. lia.
  - rewrite Z.min_l by lia. rewrite Z.sub_diag. change (2 ^ 0)%Z with 1%Z.
    pose proof (bounded_exponent_lt _ _ _ _ B1 B2 E). lia.
Qed.

Lemma SFsub_nonpos (x y : spec_float) :
  valid_binary x = true -> valid_binary y = true ->
  SFleb x y = true -> SFnonpos (SF64sub x y) = true.
Proof.
  destruct x as [sx|sx| |sx mx ex], y as [sy|sy| |sy my ey];
    intros Vx Vy; unfold SFleb; cbn [SFcompare]; intros H;
    try discriminate; try reflexivity;
    try (destruct sx; try discriminate; try reflexivity);
    try (destruct sy; try discriminate; try reflexivity).
  - (* both negative *)
    unfold SF64sub, SFsub. apply binary_normalize_nonpos. cbn [cond_Zopp].
    assert (Hc : match Z.compare ey ex with
                 | Lt => True
                 | Eq => Pos.compare_cont Eq my mx <> Gt
                 | Gt => False
                 end).
    { rewrite (Z.compare_antisym ex ey).
      destruct (Z.compare ex ey); cbn [CompOpp] in *; try discriminate; try exact I.
      change (Pos.compare_cont Eq my mx) with (Pos.compare my mx).
      change (PosDef.Pos.compare_cont Eq mx my) with (Pos.compare mx my) in H.
      rewrite (Pos.compare_antisym mx my).
      destruct (Pos.compare mx my); cbn [CompOpp] in *; congruence. }
    pose proof (aligned_le my mx ey ex Vy Vx Hc) as Hle.
    rewrite (Z.min_comm ey ex) in Hle. lia.
  - (* negative minus positive *)
    unfold SF64sub, SFsub. apply binary_normalize_nonpos. cbn [cond_Zopp]. lia.
  - (* both positive *)
    unfold SF64sub, SFsub. apply binary_normalize_nonpos. cbn [cond_Zopp].
    assert (Hc : match Z.compare ex ey with
                 | Lt => True
                 | Eq => Pos.compare_cont Eq mx my <> Gt
                 | Gt => False
                 end).
    { destruct (Z.compare ex ey); try discriminate; try exact I.
      change (PosDef.Pos.compare_cont Eq mx my) with (Pos.compare_cont Eq mx my) in H.
      destruct (Pos.compare_cont Eq mx my); congruence. }
    pose proof (aligned_le mx my ex ey Vx Vy Hc) as Hle. lia.
Qed.

(** *** The same facts on primitive floats *)

Lemma mul_nonneg (x y : float) :
  (0 <=? x) || is_nan x = true -> (0 <=? y) || is_nan y = true ->
  (0 <=? x * y) || is_nan (x * y) = true.
Proof.
  rewrite !nonneg_or_nan_spec, mul_spec. apply SFmul_nonneg.
Qed.

Lemma div_nonneg_100 (x : float) :
  (0 <=? x) || is_nan x = true -> (0 <=? x / 100) || is_nan (x / 100) = true.
Proof.
  rewrite !nonneg_or_nan_spec, div_spec. apply SFdiv_nonneg.
Qed.

Lemma div_nonneg_2 (x : float) :
  (0 <=? x) || is_nan x = true -> (0 <=? x / 2) || is_nan (x / 2) = true.
Proof.
  rewrite !nonneg_or_nan_spec, div_spec. apply SFdiv_nonneg.
Qed.

Lemma opp_nonneg (x : float) :
  (0 <=? x) || is_nan x = true -> (- x <=? 0) || is_nan (- x) = true.
Proof.
  rewrite nonneg_or_nan_spec, nonpos_or_nan_spec, opp_spec. apply SFopp_nonneg.
Qed.

Lemma sub_nonpos (x y : float) :
  (x <=? y) = true -> (x - y <=? 0) || is_nan (x - y) = true.
Proof.
  rewrite nonpos_or_nan_spec, sub_spec, FloatAxioms.leb_spec.
  apply SFsub_nonpos; apply Prim2SF_valid.
Qed.

Lemma is_nan_div_l (x y : float) : is_nan x = true -> is_nan (x / y) = true.
Proof.
  rewrite !is_nan_spec, div_spec. destruct (Prim2SF x); try discriminate. reflexivity.
Qed.

Lemma is_nan_mul_l (x y : float) : is_nan x = true -> is_nan (x * y) = true.
Proof.
  rewrite !is_nan_spec, mul_spec. destruct (Prim2SF x); try discriminate. reflexivity.
Qed.

Lemma is_nan_opp (x : float) : is_nan (- x) = is_nan x.
Proof.
  rewrite !is_nan_spec, opp_spec. now destruct (Prim2SF x).
Qed.

Lemma opp_neg (x : float) : (0 <? x) = true -> (- x <? 0) = true.
Proof.
  rewrite !FloatAxioms.ltb_spec, opp_spec, Prim2SF_zero.
  destruct (Prim2SF x) as [s|s| |s m e]; try destruct s; try discriminate; reflexivity.
Qed.

(** * The ledger, position by position *)

Lemma recalculateCallback_balance cfg bal trade i :
  accountBalance (fst (recalculateCallback cfg bal trade i))
  = Some (snd (recalculateCallback cfg bal trade i)).
Proof. reflexivity. Qed.

Lemma recalculateCallback_accountSize cfg bal trade i :
  accountSize (fst (recalculateCallback cfg bal trade i)) = Some bal.
Proof. reflexivity. Qed.

Lemma recalculateFrom_cons cfg bal k trade rest :
  recalculateFrom cfg bal k (trade :: rest)
  = fst (recalculateCallback cfg bal trade k)
    :: recalculateFrom cfg (snd (recalculateCallback cfg bal trade k)) (S k) rest.
Proof. reflexivity. Qed.

Lemma recalculateFrom_length cfg ts :
  forall bal k, List.length (recalculateFrom cfg bal k ts) = List.length ts.
Proof.
  induction ts as [|trade rest IH]; intros bal k.
  - reflexivity.
  - rewrite recalculateFrom_cons. simpl List.length. now rewrite IH.
Qed.

Lemma runningBalance_snoc cfg ts :
  forall bal trade,
    runningBalance cfg bal (ts ++ [trade])
    = snd (recalculateCallback cfg (runningBalance cfg bal ts) trade 0).
Proof.
  induction ts as [|t rest IH]; intros bal trade.
  - reflexivity.
  - simpl. apply IH.
Qed.

(** The element at position [i] of the result is the callback applied to the
    element at position [i] of the argument, with the balance the callback
    left after the [i] elements before it. *)
Lemma recalculateFrom_nth cfg ts :
  forall bal k i,
    nth_error (recalculateFrom cfg bal k ts) i
    = option_map
        (fun trade =>
           fst (recalculateCallback cfg (runningBalance cfg bal (firstn i ts)) trade (k + i)))
        (nth_error ts i).
Proof.
  induction ts as [|t rest IH]; intros bal k i.
  - destruct i; reflexivity.
  - rewrite recalculateFrom_cons. destruct i as [|i].
    + simpl. now rewrite Nat.add_0_r.
    + simpl nth_error. rewrite IH. simpl firstn. simpl runningBalance.
      now rewrite Nat.add_succ_r.
Qed.

Lemma firstn_succ_nth (A : Type) (l : list A) :
  forall i x, nth_error l i = Some x -> firstn (S i) l = (firstn i l ++ [x])%list.
Proof.
  induction l as [|a l IH]; intros i x H.
  - destruct i; discriminate.
  - destruct i as [|i].
    + simpl in H. injection H as ->. reflexivity.
    + simpl in H. change (firstn (S (S i)) (a :: l)) with (a :: firstn (S i) l).
      rewrite (IH _ _ H). reflexivity.
Qed.

Lemma recalculateTrades_nth cfg ts i trade :
  nth_error ts i = Some trade ->
  nth_error (recalculateTrades cfg ts) i
  = Some (fst (recalculateCallback cfg
                 (runningBalance cfg (initialBalance cfg) (firstn i ts)) trade i)).
Proof.
  intros H. unfold recalculateTrades. rewrite recalculateFrom_nth, H. reflexivity.
Qed.

Lemma recalculateTrades_nth_inv cfg ts i row :
  nth_error (recalculateTrades cfg ts) i = Some row ->
  exists trade,
    nth_error ts i = Some trade
    /\ row = fst (recalculateCallback cfg
                    (runningBalance cfg (initialBalance cfg) (firstn i ts)) trade i).
Proof.
  intros H. unfold recalculateTrades in H. rewrite recalculateFrom_nth in H.
  destruct (nth_error ts i) as [trade|]; [|discriminate].
  exists trade. split; [reflexivity|]. cbn [option_map] in H.
  rewrite Nat.add_0_l in H. congruence.
Qed.

(** A second pass of the callback over its own result changes nothing: it
    reads only the fields the first pass copied from its argument. *)
Lemma recalculateCallback_idem cfg bal trade k :
  recalculateCallback cfg bal (fst (recalculateCallback cfg bal trade k)) k
  = recalculateCallback cfg bal trade k.
Proof. reflexivity. Qed.

Lemma recalculateFrom_map_input (A : Type) (f : Trade -> A) cfg :
  (forall bal trade k, f (fst (recalculateCallback cfg bal trade k)) = f trade) ->
  forall ts bal k, map f (recalculateFrom cfg bal k ts) = map f ts.
Proof.
  intros Hf ts. induction ts as [|t rest IH]; intros bal k.
  - reflexivity.
  - rewrite recalculateFrom_cons. cbn [map]. now rewrite Hf, IH.
Qed.


Lemma recalculateFrom_head_accountSize cfg bal k ts first :
  nth_error (recalculateFrom cfg bal k ts) 0 = Some first ->
  accountSize first = Some bal.
Proof.
  destruct ts as [|t rest]; [discriminate|].
  rewrite recalculateFrom_cons. cbn [nth_error]. intros H.
  assert (E : first = fst (recalculateCallback cfg bal t k)) by congruence.
  rewrite E. reflexivity.
Qed.

Lemma recalculateTrades_chain cfg ts i previous next :
  nth_error (recalculateTrades cfg ts) i = Some previous ->
  nth_error (recalculateTrades cfg ts) (S i) = Some next ->
  accountSize next = accountBalance previous
  /\ exists b, accountBalance previous = Some b.
Proof.
  intros Hp Hn.
  destruct (recalculateTrades_nth_inv _ _ _ _ Hp) as (t & Et & ->).
  destruct (recalculateTrades_nth_inv _ _ _ _ Hn) as (u & _ & ->).
  rewrite recalculateCallback_accountSize, recalculateCallback_balance.
  rewrite (firstn_succ_nth _ _ _ _ Et), runningBalance_snoc.
  split; [reflexivity | eexists; reflexivity].
Qed.

Lemma Some_float_inj (x y : float) : Some x = Some y -> x = y.
Proof. congruence. Qed.

(** * C1: the derived fields *)

(** C1. For the trade at each position of the ledger, with [balance] the
    running balance (the initial balance at the first position, the ending
    balance of the trade before otherwise), [recalculateTrades] stores
    - as risk amount, [balance * (riskPercentage / 100)],
    - as floating P/L, the stated amount by outcome,
    - as ending balance, [balance] plus the floating P/L,
    - as distance to target, the profit target minus the ending balance,
    each computed from the values before it as they come out of the
    arithmetic, and each replaced when it is NaN: the risk amount and the
    floating P/L by 0, the ending balance by [balance], the distance by the
    profit target minus [balance]. *)
Theorem recalculateTrades_fields (cfg : Config) (ts : list Trade) (i : nat) (trade : Trade) :
  nth_error ts i = Some trade ->
  exists row balance,
    nth_error (recalculateTrades cfg ts) i = Some row
    /\ accountSize row = Some balance
    /\ (i = 0%nat -> balance = initialBalance cfg)
    /\ (forall j previous,
           i = S j -> nth_error (recalculateTrades cfg ts) j = Some previous ->
           accountBalance previous = Some balance)
    /\ let risk := balance * (riskPercentage trade / 100) in
       let pl := statedFloatingPL risk (winMultiplier trade) (outcome trade) in
       let ending := balance + pl in
       let distance := profitTarget cfg - ending in
       riskAmount row = Some (if isNaN risk then 0 else risk)
       /\ floatingPL row = Some (if isNaN pl then 0 else pl)
       /\ accountBalance row = Some (if isNaN ending then balance else ending)
       /\ distanceToTarget row
          = Some (if isNaN distance then profitTarget cfg - balance else distance).
Proof.
  intros Hi.
  exists (fst (recalculateCallback cfg
                 (runningBalance cfg (initialBalance cfg) (firstn i ts)) trade i)).
  exists (runningBalance cfg (initialBalance cfg) (firstn i ts)).
  split; [now apply recalculateTrades_nth|].
  split; [reflexivity|].
  split; [intros ->; reflexivity|].
  split.
  - intros j previous -> Hp.
    destruct (recalculateTrades_nth_inv _ _ _ _ Hp) as (t & Et & ->).
    rewrite recalculateCallback_balance.
    now rewrite (firstn_succ_nth _ _ _ _ Et), runningBalance_snoc.
  - cbv zeta. unfold recalculateCallback, calculateTradeRow, statedFloatingPL.
    cbn [fst riskAmount floatingPL accountBalance distanceToTarget].
    destruct (outcome trade); repeat split.
Qed.

(** The scenario of the specification: risk amount 100, floating P/L 650,
    ending balance 10650, distance to target 150. *)
Lemma recalculateTrades_fields_witness :
  nth_error [trade0] 0 = Some trade0
  /\ exists row,
       nth_error (recalculateTrades cfg0 [trade0]) 0 = Some row
       /\ accountSize row = Some 10000
       /\ riskAmount row = Some 100
       /\ floatingPL row = Some 650
       /\ accountBalance row = Some 10650
       /\ distanceToTarget row = Some 150.
Proof.
  split; [reflexivity|].
  destruct (@recalculateTrades_fields cfg0 [trade0] 0 trade0 eq_refl)
    as (row & balance & Hrow & Hsize & H0 & _ & Hrisk & Hpl & Hend & Hdist).
  exists row. rewrite (H0 eq_refl) in *.
  repeat split; assumption.
Defined.

(** C1 as stated fails there: the stored floating P/L is 0, not the NaN
    that [riskAmount * winMultiplier] is. *)
Lemma recalculateTrades_fields_counterexample :
  exists row,
    nth_error [tradeHuge] 0 = Some tradeHuge
    /\ nth_error (recalculateTrades cfgHuge [tradeHuge]) 0 = Some row
    /\ accountSize row = Some (initialBalance cfgHuge)
    /\ floatingPL row = Some 0
    /\ isNaN (statedFloatingPL (initialBalance cfgHuge * (riskPercentage tradeHuge / 100))
                (winMultiplier tradeHuge) (outcome tradeHuge)) = true
    /\ ~ fields_as_stated cfgHuge tradeHuge row (initialBalance cfgHuge).
Proof.
  eexists. split; [reflexivity|]. split; [reflexivity|].
  split; [reflexivity|]. split; [reflexivity|]. split; [reflexivity|].
  intros (_ & Hpl & _).
  apply Some_float_inj in Hpl.
  apply (f_equal isNaN) in Hpl. vm_compute in Hpl. discriminate.
Qed.

(** * C2: the balance chain *)

(** C2. In the result of [recalculateTrades] the starting balance
    ([accountSize]) of the first trade is the configuration's initial
    balance, and the starting balance of every later trade is the ending
    balance ([accountBalance]) of the trade before it. *)
Theorem recalculateTrades_balance_chain (cfg : Config) (ts : list Trade) :
  (forall first,
      nth_error (recalculateTrades cfg ts) 0 = Some first ->
      accountSize first = Some (initialBalance cfg))
  /\ (forall i previous next,
         nth_error (recalculateTrades cfg ts) i = Some previous ->
         nth_error (recalculateTrades cfg ts) (S i) = Some next ->
         accountSize next = accountBalance previous
         /\ exists b, accountBalance previous = Some b).
Proof.
  split.
  - intros first H. exact (recalculateFrom_head_accountSize _ _ _ _ _ H).
  - intros i previous next Hp Hn. exact (recalculateTrades_chain _ _ _ _ _ Hp Hn).
Qed.

(** In the ledger of three trades the first starts from 10000 and the second
    from what the first ends with, 10650. *)
Lemma recalculateTrades_balance_chain_witness :
  accountSize (fst (recalculateCallback cfg0 10000 tradeA 0)) = Some 10000
  /\ accountSize (fst (recalculateCallback cfg0 10650 tradeB 1)) = Some 10650
  /\ accountBalance (fst (recalculateCallback cfg0 10000 tradeA 0)) = Some 10650.
Proof.
  destruct (recalculateTrades_balance_chain cfg0 ledger3) as (Hfirst & Hnext).
  pose proof (Hfirst (fst (recalculateCallback cfg0 10000 tradeA 0)) eq_refl) as H0.
  destruct (Hnext 0%nat (fst (recalculateCallback cfg0 10000 tradeA 0))
              (fst (recalculateCallback cfg0 10650 tradeB 1)) eq_refl eq_refl)
    as (H1 & _).
  exact (conj H0 (conj H1 eq_refl)).
Defined.

(** * C3: the suggested risk *)

Lemma not_finite_nan (x : float) : isNaN x = true -> isFinite x = false.
Proof. unfold isNaN, isFinite, is_finite. now intros ->. Qed.

Lemma calculateNextRisk_guard (currentBal target multiplier : float) :
  (target - currentBal <=? 0) || (currentBal <=? 0) || (multiplier <=? 0) = true ->
  calculateNextRisk currentBal target multiplier = None.
Proof. unfold calculateNextRisk. now intros ->. Qed.

Lemma calculateNextRisk_formula (currentBal target multiplier : float) :
  (target - currentBal <=? 0) || (currentBal <=? 0) || (multiplier <=? 0) = false ->
  calculateNextRisk currentBal target multiplier
  = let risk := (target - currentBal) / (currentBal * multiplier) * 100 in
    if isFinite risk then Some risk else None.
Proof.
  unfold calculateNextRisk. intros ->. cbv zeta.
  set (risk := (target - currentBal) / (currentBal * multiplier) * 100).
  destruct (isNaN risk) eqn:En.
  - now rewrite (not_finite_nan _ En).
  - now destruct (isFinite risk).
Qed.

(** C3. [calculateNextRisk] is undefined when the remaining amount
    [target - currentBal], the balance or the multiplier is not above 0, in
    particular whenever the balance has reached the target; otherwise it is
    [(remaining / (currentBal * multiplier)) * 100] when that number is
    finite, and undefined when it is NaN or infinite. *)
Theorem calculateNextRisk_cases (currentBal target multiplier : float) :
  let remainingNeeded := target - currentBal in
  let risk := remainingNeeded / (currentBal * multiplier) * 100 in
  ((remainingNeeded <=? 0) = true \/ (currentBal <=? 0) = true \/ (multiplier <=? 0) = true ->
   calculateNextRisk currentBal target multiplier = None)
  /\ ((target <=? currentBal) = true ->
      calculateNextRisk currentBal target multiplier = None)
  /\ ((remainingNeeded <=? 0) = false -> (currentBal <=? 0) = false ->
      (multiplier <=? 0) = false ->
      (isFinite risk = true -> calculateNextRisk currentBal target multiplier = Some risk)
      /\ (isFinite risk = false -> calculateNextRisk currentBal target multiplier = None)).
Proof.
  intros remainingNeeded risk. subst risk remainingNeeded. split; [|split].
  - intros H. apply calculateNextRisk_guard.
    destruct H as [-> | [-> | ->]];
      [reflexivity | now rewrite orb_true_r | now rewrite orb_true_r].
  - intros Hle.
    destruct ((target - currentBal <=? 0) || (currentBal <=? 0) || (multiplier <=? 0))
      eqn:G; [now apply calculateNextRisk_guard|].
    rewrite (calculateNextRisk_formula _ _ _ G). cbv zeta.
    pose proof (sub_nonpos _ _ Hle) as Hs.
    apply orb_false_iff in G. destruct G as [G _].
    apply orb_false_iff in G. destruct G as [G _].
    rewrite G in Hs. cbn [orb] in Hs.
    now rewrite (not_finite_nan _ (is_nan_mul_l _ _ (is_nan_div_l _ _ Hs))).
  - intros H1 H2 H3.
    rewrite calculateNextRisk_formula by now rewrite H1, H2, H3.
    cbv zeta. split; now intros ->.
Qed.

(** Balance 10650, target 10800, multiplier 6.5: a risk of about 0.217;
    balance 10800: nothing to suggest. *)
Lemma calculateNextRisk_cases_witness :
  calculateNextRisk 10650 10800 6.5 = Some 0.21668472372697722
  /\ calculateNextRisk 10800 10800 6.5 = None.
Proof.
  destruct (calculateNextRisk_cases 10650 10800 6.5) as (_ & _ & H).
  destruct (calculateNextRisk_cases 10800 10800 6.5) as (_ & Hmet & _).
  split.
  - exact (proj1 (H eq_refl eq_refl eq_refl) eq_refl).
  - exact (Hmet eq_refl).
Defined.

(** * C4: idempotence *)

Lemma recalculateFrom_idem cfg ts :
  forall bal k,
    recalculateFrom cfg bal k (recalculateFrom cfg bal k ts) = recalculateFrom cfg bal k ts.
Proof.
  induction ts as [|t rest IH]; intros bal k.
  - reflexivity.
  - rewrite (recalculateFrom_cons cfg bal k t rest).
    rewrite recalculateFrom_cons.
    rewrite recalculateCallback_idem. now rewrite IH.
Qed.

(** C4. Recomputing is idempotent: applying [recalculateTrades] to a list
    that already is its result, for the same configuration, gives the
    identical list. *)
Theorem recalculateTrades_idempotent (cfg : Config) (ts : list Trade) :
  recalculateTrades cfg (recalculateTrades cfg ts) = recalculateTrades cfg ts.
Proof. apply recalculateFrom_idem. Qed.

(** * C5: deleting a trade *)

Lemma filter_other_ids (id' : string) (ts : list Trade) :
  ~ In id' (map id ts) ->
  filter (fun trade => negb (String.eqb (id trade) id')) ts = ts.
Proof.
  induction ts as [|t rest IH]; intros Hnot.
  - reflexivity.
  - cbn [filter]. destruct (String.eqb_spec (id t) id') as [E|E].
    + exfalso. apply Hnot. left. exact E.
    + cbn [negb]. rewrite IH; [reflexivity|].
      intros Hin. apply Hnot. right. exact Hin.
Qed.



Lemma ledger3_ids_distinct : NoDup (map id ledger3).
Proof.
  repeat constructor; cbn; intuition discriminate.
Qed.


(** * C6: appending a trade *)

Lemma lastBalance_snoc cfg ts trade :
  lastBalance cfg (ts ++ [trade]) = ToNumber (accountBalance trade).
Proof.
  destruct ts as [|first rest]; [reflexivity|].
  cbn [app lastBalance]. now rewrite last_last.
Qed.

(** C6. [handleAddTrade] appends one trade, with outcome [pending], the
    default win multiplier, and as risk percentage the risk suggested for
    the current ending balance (the initial balance for an empty ledger)
    when that suggestion is defined, above 0 and below 50, and the default
    risk percentage otherwise. *)
Theorem handleAddTrade_new_trade (cfg : Config) (newId : string) (trades : list Trade)
    (balance : float) :
  (trades = [] /\ balance = initialBalance cfg)
  \/ (exists earlier current,
         trades = (earlier ++ [current])%list
         /\ balance = ToNumber (accountBalance current)) ->
  exists newTrade,
    fst (handleAddTrade cfg newId trades) = (trades ++ [newTrade])%list
    /\ id newTrade = newId
    /\ outcome newTrade = pending
    /\ winMultiplier newTrade = defaultWinMultiplier cfg
    /\ (forall r,
           calculateNextRisk balance (profitTarget cfg) (defaultWinMultiplier cfg) = Some r ->
           (0 <? r) = true -> (r <? 50) = true ->
           riskPercentage newTrade = r)
    /\ (calculateNextRisk balance (profitTarget cfg) (defaultWinMultiplier cfg) = None
        \/ (exists r,
               calculateNextRisk balance (profitTarget cfg) (defaultWinMultiplier cfg) = Some r
               /\ ((0 <? r) = false \/ (r <? 50) = false)) ->
        riskPercentage newTrade = defaultRiskPercentage cfg).
Proof.
  intros Hbal.
  assert (Hb : balance = lastBalance cfg trades).
  { destruct Hbal as [[-> ->] | (earlier & current & -> & ->)].
    - reflexivity.
    - symmetry. apply lastBalance_snoc. }
  subst balance. eexists. split; [reflexivity|].
  cbn [id outcome winMultiplier riskPercentage].
  repeat split.
  - intros r Hr H0 H50. rewrite Hr, H0, H50. reflexivity.
  - intros [Hn | (r & Hr & [H0 | H50])].
    + now rewrite Hn.
    + rewrite Hr, H0. reflexivity.
    + rewrite Hr, H50. now rewrite andb_false_r.
Qed.

(** An empty ledger at balance 10000 with target 10800 and multiplier 6.5:
    the suggestion (about 1.23) is usable and becomes the risk of the new
    trade. *)
Lemma handleAddTrade_new_trade_witness :
  (([] : list Trade) = [] /\ 10000 = initialBalance cfg0)
  /\ exists newTrade,
       fst (handleAddTrade cfg0 "b" []) = [newTrade]
       /\ outcome newTrade = pending
       /\ winMultiplier newTrade = 6.5
       /\ riskPercentage newTrade = 0x1.3b13b13b13b14p+0.
Proof.
  split; [split; reflexivity|].
  destruct (@handleAddTrade_new_trade cfg0 "b" [] 10000 (or_introl (conj eq_refl eq_refl)))
    as (newTrade & Hl & _ & Ho & Hw & Hr & _).
  exists newTrade. repeat split; try assumption.
  apply Hr; reflexivity.
Defined.

(** * C7: the sign of the floating P/L *)

Lemma leb_nonneg_or_nan (x : float) : (0 <=? x) = true -> (0 <=? x) || is_nan x = true.
Proof. now intros ->. Qed.

(** What [isNaN(x) ? 0 : x] stores keeps the sign of [x]. *)
Lemma stored_nonneg (x : float) :
  (0 <=? x) || is_nan x = true -> (0 <=? (if isNaN x then 0 else x)) = true.
Proof.
  unfold isNaN. destruct (is_nan x); [reflexivity|]. now rewrite orb_false_r.
Qed.

Lemma stored_nonpos (x : float) :
  (x <=? 0) || is_nan x = true -> ((if isNaN x then 0 else x) <=? 0) = true.
Proof.
  unfold isNaN. destruct (is_nan x); [reflexivity|]. now rewrite orb_false_r.
Qed.

Lemma riskAmount_nonneg (balance riskPercentage' : float) :
  (0 <=? balance) = true -> (0 <=? riskPercentage') = true ->
  (0 <=? balance * (riskPercentage' / 100)) || is_nan (balance * (riskPercentage' / 100))
  = true.
Proof.
  intros Hb Hr. apply mul_nonneg; [now apply leb_nonneg_or_nan|].
  apply div_nonneg_100. now apply leb_nonneg_or_nan.
Qed.

(** Nothing is below NaN. *)
Lemma ltb_nan_r (x y : float) : is_nan y = true -> (x <? y) = false.
Proof.
  rewrite is_nan_spec, FloatAxioms.ltb_spec.
  destruct (Prim2SF y); try discriminate. intros _. now destruct (Prim2SF x).
Qed.

(** What [isNaN(x) ? 0 : x] stores is above 0 exactly when [x] is. *)
Lemma stored_pos (x : float) : (0 <? (if isNaN x then 0 else x)) = (0 <? x).
Proof.
  unfold isNaN. destruct (is_nan x) eqn:N; [|reflexivity].
  now rewrite (ltb_nan_r 0 x N).
Qed.

Lemma opp_ltb (x : float) : (- x <? 0) = (0 <? x).
Proof.
  rewrite !FloatAxioms.ltb_spec, opp_spec, Prim2SF_zero.
  destruct (Prim2SF x) as [s|s| |s m e]; try destruct s; reflexivity.
Qed.

Lemma stored_neg_opp (x : float) : ((if isNaN (- x) then 0 else - x) <? 0) = (0 <? x).
Proof.
  unfold isNaN. rewrite is_nan_opp. destruct (is_nan x) eqn:N; [|apply opp_ltb].
  now rewrite (ltb_nan_r 0 x N).
Qed.

(** The product of 0 and any number, and its half, are not above 0. *)
Lemma zero_mul_not_pos (y : float) : (0 <? 0 * y) = false /\ (0 <? 0 * y / 2) = false.
Proof.
  rewrite !FloatAxioms.ltb_spec, div_spec, mul_spec, Prim2SF_zero.
  destruct (Prim2SF y) as [s|s| |s m e]; try destruct s; split; reflexivity.
Qed.

(** The stored risk amount gives the floating P/L of a win the sign the raw
    one gives it. *)
Lemma stored_risk_product (raw multiplier : float) :
  (0 <? (if isNaN raw then 0 else raw) * multiplier) = (0 <? raw * multiplier)
  /\ (0 <? (if isNaN raw then 0 else raw) * multiplier / 2) = (0 <? raw * multiplier / 2).
Proof.
  unfold isNaN. destruct (is_nan raw) eqn:N; [|split; reflexivity].
  destruct (zero_mul_not_pos multiplier) as [-> ->].
  rewrite (ltb_nan_r 0 _ (is_nan_mul_l raw multiplier N)).
  now rewrite (ltb_nan_r 0 _ (is_nan_div_l _ 2 (is_nan_mul_l raw multiplier N))).
Qed.

(** C7. In the result of [recalculateTrades] the floating P/L of a trade is
    0 for outcomes breakeven and pending.  It is above 0 for outcome win
    exactly when the risk amount times the win multiplier is above 0, and
    for outcome partial win exactly when half that product is; it is below
    0 for outcome loss exactly when the risk amount is above 0 (the risk
    amount as stored, or as [balance * (riskPercentage / 100)] yields it).
    For a trade whose starting balance and risk percentage are not negative
    it is never positive for outcome loss, and, the win multiplier not being
    negative either, never negative for outcomes win and partial win. *)
Theorem floatingPL_sign (cfg : Config) (ts : list Trade) (i : nat) (row : Trade)
    (balance pl : float) :
  nth_error (recalculateTrades cfg ts) i = Some row ->
  accountSize row = Some balance ->
  floatingPL row = Some pl ->
  match outcome row with
  | breakeven => pl = 0
  | pending => pl = 0
  | win =>
      ((0 <=? balance) = true -> (0 <=? riskPercentage row) = true ->
       (0 <=? winMultiplier row) = true ->
       (0 <=? pl) = true)
      /\ (0 <? pl) = (0 <? balance * (riskPercentage row / 100) * winMultiplier row)
      /\ (forall risk, riskAmount row = Some risk ->
                       (0 <? pl) = (0 <? risk * winMultiplier row))
  | partial_win =>
      ((0 <=? balance) = true -> (0 <=? riskPercentage row) = true ->
       (0 <=? winMultiplier row) = true ->
       (0 <=? pl) = true)
      /\ (0 <? pl) = (0 <? balance * (riskPercentage row / 100) * winMultiplier row / 2)
      /\ (forall risk, riskAmount row = Some risk ->
                       (0 <? pl) = (0 <? risk * winMultiplier row / 2))
  | loss =>
      ((0 <=? balance) = true -> (0 <=? riskPercentage row) = true -> (pl <=? 0) = true)
      /\ (forall risk, riskAmount row = Some risk -> (0 <? risk) = true -> (pl <? 0) = true)
      /\ (pl <? 0) = (0 <? balance * (riskPercentage row / 100))
      /\ (forall risk, riskAmount row = Some risk -> (pl <? 0) = (0 <? risk))
  end.
Proof.
  intros Hrow Hsize Hpl.
  destruct (recalculateTrades_nth_inv _ _ _ _ Hrow) as (t & _ & ->).
  unfold recalculateCallback, calculateTradeRow in *.
  cbn [fst accountSize floatingPL outcome riskPercentage winMultiplier riskAmount] in *.
  apply Some_float_inj in Hsize. apply Some_float_inj in Hpl. subst balance pl.
  set (bal := runningBalance cfg (initialBalance cfg) (firstn i ts)).
  destruct (outcome t).
  - split; [|split].
    + intros Hb Hr Hw. apply stored_nonneg.
      apply mul_nonneg; [now apply riskAmount_nonneg | now apply leb_nonneg_or_nan].
    + apply stored_pos.
    + intros risk Hrisk. apply Some_float_inj in Hrisk. subst risk.
      rewrite stored_pos. symmetry. apply stored_risk_product.
  - split; [|split].
    + intros Hb Hr Hw. apply stored_nonneg. apply div_nonneg_2.
      apply mul_nonneg; [now apply riskAmount_nonneg | now apply leb_nonneg_or_nan].
    + apply stored_pos.
    + intros risk Hrisk. apply Some_float_inj in Hrisk. subst risk.
      rewrite stored_pos. symmetry. apply stored_risk_product.
  - split; [|split; [|split]].
    + intros Hb Hr. apply stored_nonpos. apply opp_nonneg. now apply riskAmount_nonneg.
    + intros risk Hrisk Hpos. apply Some_float_inj in Hrisk. subst risk.
      unfold isNaN in *. rewrite is_nan_opp.
      destruct (is_nan (bal * (riskPercentage t / 100))); [discriminate|].
      now apply opp_neg.
    + apply stored_neg_opp.
    + intros risk Hrisk. apply Some_float_inj in Hrisk. subst risk.
      rewrite stored_neg_opp, stored_pos. reflexivity.
  - reflexivity.
  - reflexivity.
Qed.

(** The scenario of the specification: a win at risk amount 100 and
    multiplier 6.5 has a floating P/L of 650, which is above 0. *)
Lemma floatingPL_sign_witness :
  nth_error (recalculateTrades cfg0 [trade0]) 0
  = Some (fst (recalculateCallback cfg0 10000 trade0 0))
  /\ accountSize (fst (recalculateCallback cfg0 10000 trade0 0)) = Some 10000
  /\ floatingPL (fst (recalculateCallback cfg0 10000 trade0 0)) = Some 650
  /\ riskAmount (fst (recalculateCallback cfg0 10000 trade0 0)) = Some 100
  /\ (0 <=? 10000) = true /\ (0 <=? 1) = true /\ (0 <=? 6.5) = true
  /\ (0 <=? 650) = true
  /\ (0 <? 650) = (0 <? 100 * 6.5)
  /\ (0 <? 650) = true.
Proof.
  do 7 (split; [reflexivity|]).
  destruct (floatingPL_sign cfg0 [trade0] 0 (fst (recalculateCallback cfg0 10000 trade0 0))
              10000 650 eq_refl eq_refl eq_refl) as (Hweak & _ & Hstrict).
  split; [exact (Hweak eq_refl eq_refl eq_refl)|].
  split; [exact (Hstrict 100 eq_refl)|].
  exact (eq_trans (Hstrict 100 eq_refl) eq_refl).
Defined.

(** C7 as stated fails on a winning trade entered with a risk of 0%: its
    floating P/L is 0, which is not above 0. *)
Lemma floatingPL_sign_counterexample :
  exists row pl,
    nth_error (recalculateTrades cfg0 [tradeZeroRisk]) 0 = Some row
    /\ outcome row = win
    /\ floatingPL row = Some pl
    /\ pl = 0
    /\ sign_as_stated (outcome row) pl = false.
Proof.
  eexists. eexists. split; [reflexivity|]. repeat split.
Qed.

(** * C8: the edit boundary *)

Lemma getField_setField trade field v : getField (setField trade field v) field = v.
Proof. destruct field; reflexivity. Qed.

Lemma setField_getField trade field : setField trade field (getField trade field) = trade.
Proof. destruct trade, field; reflexivity. Qed.

(** A number that is not NaN is strictly equal to itself. *)
Lemma eqb_refl_not_nan (x : float) : isNaN x = false -> (x =? x) = true.
Proof.
  unfold isNaN, is_nan. intros H. now apply negb_false_iff in H.
Qed.

(** C8. [handleUpdateTradeValue] on a text whose [parseFloat] is NaN or
    below zero shows an error notice and leaves the trade list as it was.
    On any other text it keeps every trade of a different identity as it
    is, and in a trade of the given identity it changes nothing but the
    named field, which afterwards is strictly equal ([===]) to the number
    entered (and is that very number whenever it was not already strictly
    equal to it). *)
Theorem handleUpdateTradeValue_boundary (parseFloat : string -> float) (id' : string)
    (field : ValueField) (value : string) (trades : list Trade) :
  let numericValue := parseFloat value in
  let trades' := fst (handleUpdateTradeValue parseFloat id' field value trades) in
  (isNaN numericValue = true \/ (numericValue <? 0) = true ->
   handleUpdateTradeValue parseFloat id' field value trades
   = (trades,
      [toast_error match field with
                   | field_riskPercentage => "Invalid Risk % value."
                   | field_winMultiplier => "Invalid Win Multiplier value."
                   end]))
  /\ (isNaN numericValue = false -> (numericValue <? 0) = false ->
      List.length trades' = List.length trades
      /\ forall i trade,
           nth_error trades i = Some trade ->
           exists trade',
             nth_error trades' i = Some trade'
             /\ (id trade <> id' -> trade' = trade)
             /\ (id trade = id' ->
                 trade' = setField trade field (getField trade' field)
                 /\ (getField trade' field =? numericValue) = true
                 /\ ((getField trade field =? numericValue) = false ->
                     getField trade' field = numericValue))).
Proof.
  intros numericValue trades'. subst trades'. unfold handleUpdateTradeValue.
  fold numericValue. split.
  - intros H.
    assert (E : isNaN numericValue || (numericValue <? 0) = true).
    { destruct H as [-> | ->]; [reflexivity | apply orb_true_r]. }
    rewrite E. destruct field; reflexivity.
  - intros Hnan Hneg. rewrite Hnan, Hneg. cbn [orb fst].
    split; [apply length_map|].
    intros i trade Hi.
    rewrite nth_error_map, Hi. cbn [option_map].
    eexists. split; [reflexivity|].
    unfold valueDiffers. split.
    + intros Hid. destruct (String.eqb_spec (id trade) id'); [contradiction|].
      reflexivity.
    + intros Hid. destruct (String.eqb_spec (id trade) id'); [|contradiction].
      cbn [andb].
      destruct (getField trade field =? numericValue) eqn:Eq; cbn [negb].
      * repeat split.
        -- now rewrite setField_getField.
        -- exact Eq.
        -- discriminate.
      * rewrite getField_setField. repeat split.
        -- now apply eqb_refl_not_nan.
Qed.

(** On the ledger of three trades: the text "-1" is refused for the risk of
    trade "b", and the text "2.5" becomes its risk, trades "a" and "c"
    staying as they are. *)
Lemma handleUpdateTradeValue_boundary_witness :
  handleUpdateTradeValue parseFloatSample "b" field_riskPercentage "-1" ledger3
  = (ledger3, [toast_error "Invalid Risk % value."])
  /\ exists tradeB',
       nth_error
         (fst (handleUpdateTradeValue parseFloatSample "b" field_riskPercentage "2.5" ledger3))
         1 = Some tradeB'
       /\ (riskPercentage tradeB' =? 2.5) = true.
Proof.
  destruct (handleUpdateTradeValue_boundary parseFloatSample "b" field_riskPercentage
              "-1" ledger3) as (Hbad & _).
  destruct (handleUpdateTradeValue_boundary parseFloatSample "b" field_riskPercentage
              "2.5" ledger3) as (_ & Hgood).
  split; [exact (Hbad (or_intror eq_refl))|].
  destruct (Hgood eq_refl eq_refl) as (_ & Hnth).
  destruct (Hnth 1%nat tradeB eq_refl) as (tradeB' & Hb & _ & Hsame).
  exists tradeB'. split; [exact Hb|].
  exact (proj1 (proj2 (Hsame eq_refl))).
Defined.

(** * C9: the multiplier behind a suggested risk *)

(** C9. The suggested next risk [recalculateTrades] attaches to a trade is
    [calculateNextRisk] of that trade's ending balance with the
    configuration's default win multiplier, and so is the suggestion
    [handleAddTrade] uses to fill in the risk of the trade it appends: the
    trade's own [winMultiplier] is not an argument of either. *)
Theorem suggested_risk_uses_default_multiplier (cfg : Config) :
  (forall ts i row,
      nth_error (recalculateTrades cfg ts) i = Some row ->
      exists balance,
        accountBalance row = Some balance
        /\ nextSuggestedRisk row
           = calculateNextRisk balance (profitTarget cfg) (defaultWinMultiplier cfg))
  /\ (forall newId trades,
         exists newTrade,
           fst (handleAddTrade cfg newId trades) = (trades ++ [newTrade])%list
           /\ riskPercentage newTrade
              = match calculateNextRisk (lastBalance cfg trades) (profitTarget cfg)
                        (defaultWinMultiplier cfg) with
                | Some r => if (0 <? r) && (r <? 50) then r else defaultRiskPercentage cfg
                | None => defaultRiskPercentage cfg
                end).
Proof.
  split.
  - intros ts i row H.
    destruct (recalculateTrades_nth_inv _ _ _ _ H) as (t & _ & ->).
    eexists. split; reflexivity.
  - intros newId trades. eexists. split; reflexivity.
Qed.

(** Trade "b" of the ledger of three has a win multiplier of 3 of its own;
    the risk suggested after it is the one for the default multiplier 6.5. *)
Lemma suggested_risk_uses_default_multiplier_witness :
  winMultiplier tradeB = 3
  /\ exists row balance,
       nth_error (recalculateTrades cfg0 ledger3) 1 = Some row
       /\ accountBalance row = Some balance
       /\ nextSuggestedRisk row = calculateNextRisk balance 10800 6.5.
Proof.
  split; [reflexivity|].
  destruct (suggested_risk_uses_default_multiplier cfg0) as (Hrows & _).
  destruct (Hrows ledger3 1%nat _ eq_refl) as (balance & Hbal & Hrisk).
  eexists. exists balance. split; [reflexivity|]. exact (conj Hbal Hrisk).
Defined.

(** * C10: what a recalculation leaves alone *)

(** C10. [recalculateTrades] keeps the length and the order of the list, and
    the trade at each position keeps its [id], [riskPercentage],
    [winMultiplier] and [outcome]. *)
Theorem recalculateTrades_frame (cfg : Config) (ts : list Trade) :
  List.length (recalculateTrades cfg ts) = List.length ts
  /\ map id (recalculateTrades cfg ts) = map id ts
  /\ map riskPercentage (recalculateTrades cfg ts) = map riskPercentage ts
  /\ map winMultiplier (recalculateTrades cfg ts) = map winMultiplier ts
  /\ map outcome (recalculateTrades cfg ts) = map outcome ts.
Proof.
  unfold recalculateTrades. split; [apply recalculateFrom_length|].
  repeat split; apply recalculateFrom_map_input; reflexivity.
Qed.

(** * Further properties of the ledger *)

Lemma recalculateFrom_app cfg ts1 :
  forall bal k ts2,
    recalculateFrom cfg bal k (ts1 ++ ts2)
    = (recalculateFrom cfg bal k ts1
       ++ recalculateFrom cfg (runningBalance cfg bal ts1) (k + List.length ts1) ts2)%list.
Proof.
  induction ts1 as [|t rest IH]; intros bal k ts2.
  - cbn [app recalculateFrom runningBalance List.length]. now rewrite Nat.add_0_r.
  - cbn [app]. rewrite !recalculateFrom_cons, IH. cbn [app runningBalance List.length].
    now rewrite Nat.add_succ_r.
Qed.

Lemma recalculateFrom_firstn cfg ts :
  forall bal k n,
    firstn n (recalculateFrom cfg bal k ts) = recalculateFrom cfg bal k (firstn n ts).
Proof.
  induction ts as [|t rest IH]; intros bal k n.
  - now destruct n.
  - destruct n as [|n]; [reflexivity|].
    rewrite recalculateFrom_cons. cbn [firstn]. rewrite recalculateFrom_cons.
    now rewrite IH.
Qed.

Lemma runningBalance_recalculated cfg ts :
  forall bal k, runningBalance cfg bal (recalculateFrom cfg bal k ts) = runningBalance cfg bal ts.
Proof.
  induction ts as [|t rest IH]; intros bal k.
  - reflexivity.
  - rewrite recalculateFrom_cons. cbn [runningBalance].
    change (snd (recalculateCallback cfg bal (fst (recalculateCallback cfg bal t k)) 0))
      with (snd (recalculateCallback cfg bal t k)).
    apply IH.
Qed.

Lemma lastBalance_recalculated cfg ts :
  lastBalance cfg (recalculateTrades cfg ts) = runningBalance cfg (initialBalance cfg) ts.
Proof.
  unfold recalculateTrades.
  destruct ts as [|t rest] using rev_ind; [reflexivity|].
  rewrite recalculateFrom_app, runningBalance_snoc.
  rewrite (recalculateFrom_cons cfg _ _ t []). cbn [recalculateFrom].
  rewrite lastBalance_snoc. reflexivity.
Qed.

Lemma recalculateTrades_twice cfg ts :
  recalculateTrades cfg (recalculateTrades cfg ts) = recalculateTrades cfg ts.
Proof. apply recalculateFrom_idem. Qed.

Lemma currentBalance_lastBalance cfg trades : currentBalance cfg trades = lastBalance cfg trades.
Proof. reflexivity. Qed.

(** X1. Whatever a later part of the ledger holds, the rows
    [recalculateTrades] gives the trades before it are the same: two
    ledgers that agree on their first [n] trades have the same first [n]
    recalculated rows.  Adding, editing or deleting a trade never changes a
    row above it. *)
Theorem recalculateTrades_prefix (cfg : Config) (ts1 ts2 : list Trade) (n : nat) :
  firstn n ts1 = firstn n ts2 ->
  firstn n (recalculateTrades cfg ts1) = firstn n (recalculateTrades cfg ts2).
Proof.
  intros H. unfold recalculateTrades. rewrite !recalculateFrom_firstn. now rewrite H.
Qed.

(** The ledger of three and the same ledger with its last trade turned into
    a loss: the first two rows are the same. *)
Lemma recalculateTrades_prefix_witness :
  firstn 2 ledger3 = firstn 2 [tradeA; tradeB; newTrade "c" 1.5 loss 6.5]
  /\ firstn 2 (recalculateTrades cfg0 ledger3)
     = firstn 2 (recalculateTrades cfg0 [tradeA; tradeB; newTrade "c" 1.5 loss 6.5]).
Proof.
  split; [reflexivity|].
  exact (recalculateTrades_prefix cfg0 ledger3 [tradeA; tradeB; newTrade "c" 1.5 loss 6.5]
           2 eq_refl).
Defined.

Lemma recalculateFrom_map_balance (A : Type) (f : Trade -> A) cfg1 cfg2 :
  (forall bal trade k,
      f (fst (recalculateCallback cfg1 bal trade k))
      = f (fst (recalculateCallback cfg2 bal trade k))) ->
  forall ts bal k,
    map f (recalculateFrom cfg1 bal k ts) = map f (recalculateFrom cfg2 bal k ts).
Proof.
  intros Hf ts. induction ts as [|t rest IH]; intros bal k.
  - reflexivity.
  - rewrite !recalculateFrom_cons. cbn [map]. rewrite Hf.
    change (snd (recalculateCallback cfg1 bal t k))
      with (snd (recalculateCallback cfg2 bal t k)).
    now rewrite IH.
Qed.

(** X2. The balances of the ledger depend on the settings through the
    initial balance only: two configurations with the same initial balance
    give every trade the same starting balance, risk amount, floating P/L
    and ending balance, whatever their profit targets, default risk
    percentages and default win multipliers. *)
Theorem balances_depend_on_initialBalance (cfg1 cfg2 : Config) (ts : list Trade) :
  initialBalance cfg1 = initialBalance cfg2 ->
  map accountSize (recalculateTrades cfg1 ts) = map accountSize (recalculateTrades cfg2 ts)
  /\ map riskAmount (recalculateTrades cfg1 ts) = map riskAmount (recalculateTrades cfg2 ts)
  /\ map floatingPL (recalculateTrades cfg1 ts) = map floatingPL (recalculateTrades cfg2 ts)
  /\ map accountBalance (recalculateTrades cfg1 ts)
     = map accountBalance (recalculateTrades cfg2 ts).
Proof.
  intros H. unfold recalculateTrades. rewrite H.
  repeat split; apply recalculateFrom_map_balance; reflexivity.
Qed.

(** The scenario's ledger under the target 10800 and default multiplier 6.5,
    and under a target of 20000 and a default multiplier of 2. *)
Lemma balances_depend_on_initialBalance_witness :
  initialBalance cfg0 = initialBalance (mkConfig 10000 20000 5 2)
  /\ map accountBalance (recalculateTrades cfg0 ledger3)
     = map accountBalance (recalculateTrades (mkConfig 10000 20000 5 2) ledger3).
Proof.
  split; [reflexivity|].
  exact (proj2 (proj2 (proj2
    (balances_depend_on_initialBalance cfg0 (mkConfig 10000 20000 5 2) ledger3 eq_refl)))).
Defined.

Lemma stored_not_nan (x fallback : float) :
  is_nan fallback = false -> is_nan (if isNaN x then fallback else x) = false.
Proof.
  intros Hf. unfold isNaN. destruct (is_nan x) eqn:E; assumption.
Qed.

Lemma recalculateCallback_snd_not_nan cfg bal trade k :
  is_nan bal = false -> is_nan (snd (recalculateCallback cfg bal trade k)) = false.
Proof.
  intros H. unfold recalculateCallback, calculateTradeRow.
  cbn [snd accountBalance ToNumber]. now apply stored_not_nan.
Qed.

Lemma runningBalance_not_nan cfg ts :
  forall bal, is_nan bal = false -> is_nan (runningBalance cfg bal ts) = false.
Proof.
  induction ts as [|t rest IH]; intros bal H.
  - exact H.
  - cbn [runningBalance]. apply IH. now apply recalculateCallback_snd_not_nan.
Qed.

(** X3. When the initial balance is not NaN, [recalculateTrades] gives the
    trade at every position all of its derived fields, its number being its
    position plus one, and none of starting balance, risk amount, floating
    P/L and ending balance is NaN: a NaN that arithmetic produces for one
    trade does not reach the balances of the trades after it. *)
Theorem recalculateTrades_no_NaN (cfg : Config) (ts : list Trade) (i : nat) (row : Trade) :
  is_nan (initialBalance cfg) = false ->
  nth_error (recalculateTrades cfg ts) i = Some row ->
  exists size risk pl balance distance,
    tradeNumber row = Some (S i)
    /\ accountSize row = Some size
    /\ riskAmount row = Some risk
    /\ floatingPL row = Some pl
    /\ accountBalance row = Some balance
    /\ distanceToTarget row = Some distance
    /\ is_nan size = false
    /\ is_nan risk = false
    /\ is_nan pl = false
    /\ is_nan balance = false.
Proof.
  intros Hinit Hrow.
  destruct (recalculateTrades_nth_inv _ _ _ _ Hrow) as (t & _ & ->).
  pose proof (runningBalance_not_nan cfg (firstn i ts) _ Hinit) as Hbal.
  set (bal := runningBalance cfg (initialBalance cfg) (firstn i ts)) in *.
  unfold recalculateCallback, calculateTradeRow.
  cbn [fst tradeNumber accountSize riskAmount floatingPL accountBalance distanceToTarget].
  do 5 eexists.
  split; [now rewrite Nat.add_1_r|].
  do 5 (split; [reflexivity|]).
  split; [exact Hbal|].
  split; [now apply stored_not_nan|].
  split; [now apply stored_not_nan|].
  now apply stored_not_nan.
Qed.

(** On the overflowing ledger, where the raw floating P/L is NaN, the stored
    fields are numbers. *)
Lemma recalculateTrades_no_NaN_witness :
  is_nan (initialBalance cfgHuge) = false
  /\ nth_error (recalculateTrades cfgHuge [tradeHuge]) 0
     = Some (fst (recalculateCallback cfgHuge 1e308 tradeHuge 0))
  /\ exists pl balance,
       floatingPL (fst (recalculateCallback cfgHuge 1e308 tradeHuge 0)) = Some pl
       /\ accountBalance (fst (recalculateCallback cfgHuge 1e308 tradeHuge 0)) = Some balance
       /\ is_nan pl = false /\ is_nan balance = false.
Proof.
  split; [reflexivity|]. split; [reflexivity|].
  destruct (recalculateTrades_no_NaN cfgHuge [tradeHuge] 0 _ eq_refl eq_refl)
    as (size & risk & pl & balance & distance & _ & _ & _ & Hpl & Hbal & _ & _ & _ & Np & Nb).
  exists pl, balance. exact (conj Hpl (conj Hbal (conj Np Nb))).
Defined.

Lemma add_zero_spec (x : spec_float) :
  SFis_nan x = false ->
  SFis_nan (SF64add x (S754_zero false)) = false
  /\ SFeqb (SF64add x (S754_zero false)) x = true.
Proof.
  destruct x as [s|s| |s m e]; try discriminate; intros _.
  - destruct s; split; reflexivity.
  - destruct s; split; reflexivity.
  - cbn [SF64add SFadd]. split; [reflexivity|]. now rewrite SFeqb_refl.
Qed.

Lemma add_zero (x : float) :
  is_nan x = false -> is_nan (x + 0) = false /\ (x + 0 =? x) = true.
Proof.
  rewrite !is_nan_spec, FloatAxioms.eqb_spec, add_spec, Prim2SF_zero.
  apply add_zero_spec.
Qed.

Lemma is_nan_add_l (x y : float) : is_nan x = true -> is_nan (x + y) = true.
Proof.
  rewrite !is_nan_spec, add_spec. destruct (Prim2SF x); try discriminate. reflexivity.
Qed.

(** X4. A trade whose outcome is pending or breakeven leaves the balance as
    it is: in the result of [recalculateTrades] its floating P/L is 0 and
    its ending balance is strictly equal ([===]) to its starting balance, or
    both are NaN. *)
Theorem pending_keeps_balance (cfg : Config) (ts : list Trade) (i : nat) (row : Trade) :
  nth_error (recalculateTrades cfg ts) i = Some row ->
  outcome row = pending \/ outcome row = breakeven ->
  exists size balance,
    accountSize row = Some size
    /\ accountBalance row = Some balance
    /\ floatingPL row = Some 0
    /\ ((balance =? size) = true \/ (is_nan size = true /\ is_nan balance = true)).
Proof.
  intros Hrow Hout.
  destruct (recalculateTrades_nth_inv _ _ _ _ Hrow) as (t & _ & ->).
  set (bal := runningBalance cfg (initialBalance cfg) (firstn i ts)) in *.
  unfold recalculateCallback, calculateTradeRow in *.
  cbn [fst outcome accountSize accountBalance floatingPL] in *.
  assert (E : match outcome t with
              | win => bal * (riskPercentage t / 100) * winMultiplier t
              | partial_win => bal * (riskPercentage t / 100) * winMultiplier t / 2
              | loss => - (bal * (riskPercentage t / 100))
              | _ => 0
              end = 0).
  { destruct Hout as [-> | ->]; reflexivity. }
  rewrite E. do 2 eexists.
  split; [reflexivity|]. split; [reflexivity|]. split; [reflexivity|].
  unfold isNaN. destruct (is_nan bal) eqn:Hn.
  - right. rewrite (is_nan_add_l _ 0 Hn). split; [reflexivity | exact Hn].
  - left. destruct (add_zero _ Hn) as [-> Heq]. exact Heq.
Qed.

(** The third trade of the ledger of three is pending: it starts and ends
    at the same balance. *)
Lemma pending_keeps_balance_witness :
  exists row size balance,
    nth_error (recalculateTrades cfg0 ledger3) 2 = Some row
    /\ outcome row = pending
    /\ accountSize row = Some size
    /\ accountBalance row = Some balance
    /\ (balance =? size) = true.
Proof.
  eexists.
  destruct (pending_keeps_balance cfg0 ledger3 2 _ eq_refl (or_introl eq_refl))
    as (size & balance & Hs & Hb & _ & [Heq | [Hn _]]).
  - exists size, balance. split; [reflexivity|]. split; [reflexivity|].
    exact (conj Hs (conj Hb Heq)).
  - exfalso. apply Some_float_inj in Hs. subst size. vm_compute in Hn. discriminate.
Defined.

(** X5. Adding a trade to a recalculated ledger and recalculating again
    keeps every row of the ledger as it was and appends one row: the new
    trade, pending, numbered one more than the number of trades (the number
    the notice of [handleAddTrade] announces), starting from the current
    balance, with a floating P/L of 0. *)
Theorem handleAddTrade_then_recalculate (cfg : Config) (newId : string) (ts : list Trade) :
  exists row,
    recalculateTrades cfg (fst (handleAddTrade cfg newId (recalculateTrades cfg ts)))
    = (recalculateTrades cfg ts ++ [row])%list
    /\ id row = newId
    /\ tradeNumber row = Some (List.length ts + 1)%nat
    /\ outcome row = pending
    /\ accountSize row = Some (currentBalance cfg (recalculateTrades cfg ts))
    /\ floatingPL row = Some 0
    /\ snd (handleAddTrade cfg newId (recalculateTrades cfg ts))
       = [toast_success ("Trade #" ++ showNat (List.length ts + 1)%nat ++ " added.")%string].
Proof.
  cbn [handleAddTrade fst snd]. unfold recalculateTrades at 1.
  rewrite recalculateFrom_app.
  fold (recalculateTrades cfg (recalculateTrades cfg ts)).
  rewrite recalculateTrades_twice.
  rewrite (recalculateFrom_cons cfg _ _ _ []). cbn [recalculateFrom].
  eexists. split; [reflexivity|].
  split; [reflexivity|].
  split.
  { cbn [recalculateCallback fst tradeNumber]. unfold recalculateTrades.
    now rewrite recalculateFrom_length. }
  split; [reflexivity|].
  split.
  { rewrite recalculateCallback_accountSize, currentBalance_lastBalance.
    unfold recalculateTrades at 1. rewrite runningBalance_recalculated.
    now rewrite lastBalance_recalculated. }
  split; [reflexivity|].
  unfold recalculateTrades. now rewrite recalculateFrom_length.
Qed.

Lemma recalculateTrades_last cfg ts earlier row :
  recalculateTrades cfg ts = (earlier ++ [row])%list ->
  exists bal trade k, row = fst (recalculateCallback cfg bal trade k).
Proof.
  intros H.
  assert (Hn : nth_error (recalculateTrades cfg ts) (List.length earlier) = Some row).
  { rewrite H, nth_error_app2, Nat.sub_diag by lia. reflexivity. }
  destruct (recalculateTrades_nth_inv _ _ _ _ Hn) as (t & _ & ->).
  do 3 eexists. reflexivity.
Qed.

(** X6. On a recalculated ledger that is not empty, the suggestion computed
    from the current balance is the suggested next risk of the last row: the
    header shows under "Current Suggested Risk" the text the last row shows
    under "Required Suggested Risk", and it is from that number that
    [handleAddTrade] fills in the risk of a new trade. *)
Theorem currentSuggestedRisk_is_last_row (toFixed3 : float -> string) (cfg : Config)
    (ts earlier : list Trade) (row : Trade) (newId : string) :
  recalculateTrades cfg ts = (earlier ++ [row])%list ->
  calculateNextRisk (currentBalance cfg (recalculateTrades cfg ts)) (profitTarget cfg)
    (defaultWinMultiplier cfg) = nextSuggestedRisk row
  /\ formatPercentagePrecise toFixed3 (Some (currentSuggestedRisk cfg (recalculateTrades cfg ts)))
     = formatPercentagePrecise toFixed3 (nextSuggestedRisk row)
  /\ exists newTrade,
       fst (handleAddTrade cfg newId (recalculateTrades cfg ts))
       = (recalculateTrades cfg ts ++ [newTrade])%list
       /\ riskPercentage newTrade
          = match nextSuggestedRisk row with
            | Some r => if (0 <? r) && (r <? 50) then r else defaultRiskPercentage cfg
            | None => defaultRiskPercentage cfg
            end.
Proof.
  intros H.
  destruct (recalculateTrades_last _ _ _ _ H) as (bal & t & k & Hrow).
  assert (Hcur : calculateNextRisk (currentBalance cfg (recalculateTrades cfg ts))
                   (profitTarget cfg) (defaultWinMultiplier cfg) = nextSuggestedRisk row).
  { rewrite H, currentBalance_lastBalance, lastBalance_snoc, Hrow. reflexivity. }
  split; [exact Hcur|]. split.
  - unfold currentSuggestedRisk. rewrite Hcur.
    destruct (nextSuggestedRisk row); reflexivity.
  - eexists. split; [reflexivity|].
    cbn [riskPercentage]. change (lastBalance cfg (recalculateTrades cfg ts))
      with (currentBalance cfg (recalculateTrades cfg ts)).
    now rewrite Hcur.
Qed.

(** The scenario: after the one winning trade both the header and the row
    suggest a risk of about 0.217%. *)
Lemma currentSuggestedRisk_is_last_row_witness :
  recalculateTrades cfg0 [trade0] = ([] ++ [fst (recalculateCallback cfg0 10000 trade0 0)])%list
  /\ calculateNextRisk (currentBalance cfg0 (recalculateTrades cfg0 [trade0])) 10800 6.5
     = Some 0.21668472372697722
  /\ nextSuggestedRisk (fst (recalculateCallback cfg0 10000 trade0 0))
     = Some 0.21668472372697722.
Proof.
  split; [reflexivity|].
  destruct (currentSuggestedRisk_is_last_row (fun _ => EmptyString) cfg0 [trade0] [] _ "n"
              eq_refl) as (Hcur & _).
  split; [|reflexivity].
  exact (eq_trans Hcur eq_refl).
Defined.

(** X7. The recalculation effect settles: after it has run once, the state
    of [trades] serializes as the recalculated ledger does, and running it
    again leaves the state as it is, so it does not set the state a second
    time. *)
Theorem recalculationEffect_settles (stringify : list Trade -> string) (cfg : Config)
    (trades : list Trade) :
  stringify (recalculationEffect stringify cfg trades)
  = stringify (recalculateTrades cfg trades)
  /\ recalculationEffect stringify cfg (recalculationEffect stringify cfg trades)
     = recalculationEffect stringify cfg trades.
Proof.
  unfold recalculationEffect at 1 3 4. cbv zeta.
  destruct (String.eqb_spec (stringify (recalculateTrades cfg trades)) (stringify trades))
    as [E|E]; cbn [negb].
  - split; [now rewrite E|].
    unfold recalculationEffect. cbv zeta. rewrite E, String.eqb_refl. reflexivity.
  - split; [reflexivity|].
    unfold recalculationEffect. cbv zeta.
    rewrite recalculateTrades_twice, String.eqb_refl. reflexivity.
Qed.

(** * A defined suggestion *)

Lemma binary_round_aux_sign_clear (m e : Z) (l : location) :
  SFsign_clear (binary_round_aux prec emax false m e l) = true.
Proof.
  pose proof (binary_round_aux_sign false m e l) as H.
  destruct (binary_round_aux prec emax false m e l); try subst; reflexivity.
Qed.

Lemma SFmul_sign_clear (x y : spec_float) :
  SFsign_clear x = true -> SFsign_clear y = true -> SFsign_clear (SF64mul x y) = true.
Proof.
  destruct x as [sx|sx| |sx mx ex], y as [sy|sy| |sy my ey];
    cbn [SFsign_clear]; intros Hx Hy; try reflexivity;
    try (apply negb_true_iff in Hx); try (apply negb_true_iff in Hy); subst;
    try reflexivity.
  apply binary_round_aux_sign_clear.
Qed.

Lemma SFdiv_sign_clear (x y : spec_float) :
  SFsign_clear x = true -> SFsign_clear y = true -> SFsign_clear (SF64div x y) = true.
Proof.
  destruct x as [sx|sx| |sx mx ex], y as [sy|sy| |sy my ey];
    cbn [SFsign_clear]; intros Hx Hy; try reflexivity;
    try (apply negb_true_iff in Hx); try (apply negb_true_iff in Hy); subst;
    try reflexivity.
  unfold SF64div, SFdiv.
  destruct (SFdiv_core_binary prec emax (Z.pos mx) ex (Z.pos my) ey) as [[mz ez] lz].
  apply binary_round_aux_sign_clear.
Qed.

Lemma ltb_zero_sign_clear (x : float) : (0 <? x) = true -> SFsign_clear (Prim2SF x) = true.
Proof.
  rewrite FloatAxioms.ltb_spec, Prim2SF_zero.
  destruct (Prim2SF x) as [s|s| |s m e]; try destruct s; try discriminate; reflexivity.
Qed.

Lemma sign_clear_leb_zero (x : float) :
  SFsign_clear (Prim2SF x) = true -> is_nan x = false -> (0 <=? x) = true.
Proof.
  rewrite is_nan_spec, FloatAxioms.leb_spec, Prim2SF_zero.
  destruct (Prim2SF x) as [s|s| |s m e]; try destruct s; try discriminate; reflexivity.
Qed.

(** On a number, [x <= 0] is the negation of [0 < x]. *)
Lemma leb_zero_ltb (x : float) : is_nan x = false -> (x <=? 0) = negb (0 <? x).
Proof.
  rewrite is_nan_spec, FloatAxioms.leb_spec, FloatAxioms.ltb_spec, Prim2SF_zero.
  destruct (Prim2SF x) as [s|s| |s m e]; try destruct s; try discriminate; reflexivity.
Qed.

Lemma mul_not_nan (x y : float) :
  is_nan (x * y) = false -> is_nan x = false /\ is_nan y = false.
Proof.
  rewrite !is_nan_spec, mul_spec.
  destruct (Prim2SF x), (Prim2SF y); try discriminate; split; reflexivity.
Qed.

Lemma div_not_nan (x y : float) :
  is_nan (x / y) = false -> is_nan x = false /\ is_nan y = false.
Proof.
  rewrite !is_nan_spec, div_spec.
  destruct (Prim2SF x), (Prim2SF y); try discriminate; split; reflexivity.
Qed.

Lemma finite_not_nan (x : float) : isFinite x = true -> is_nan x = false.
Proof.
  unfold isFinite, is_finite. destruct (is_nan x); [discriminate | reflexivity].
Qed.

(** What a defined result of [calculateNextRisk] says about its arguments
    and about itself. *)
Lemma calculateNextRisk_Some (currentBal target multiplier risk : float) :
  calculateNextRisk currentBal target multiplier = Some risk ->
  risk = (target - currentBal) / (currentBal * multiplier) * 100
  /\ isFinite risk = true
  /\ (0 <=? risk) = true
  /\ (0 <? target - currentBal) = true
  /\ (0 <? currentBal) = true
  /\ (0 <? multiplier) = true.
Proof.
  intros H.
  destruct ((target - currentBal <=? 0) || (currentBal <=? 0) || (multiplier <=? 0)) eqn:G.
  { rewrite (calculateNextRisk_guard _ _ _ G) in H. discriminate. }
  rewrite (calculateNextRisk_formula _ _ _ G) in H. cbv zeta in H.
  destruct (isFinite ((target - currentBal) / (currentBal * multiplier) * 100)) eqn:F;
    [|discriminate].
  apply Some_float_inj in H. subst risk.
  split; [reflexivity|]. split; [exact F|].
  pose proof (finite_not_nan _ F) as N.
  destruct (mul_not_nan _ _ N) as [Nq _].
  destruct (div_not_nan _ _ Nq) as [Nrem Nden].
  destruct (mul_not_nan _ _ Nden) as [Nbal Nmul].
  apply orb_false_iff in G. destruct G as [G Gm].
  apply orb_false_iff in G. destruct G as [Gr Gb].
  rewrite (leb_zero_ltb _ Nrem) in Gr. apply negb_false_iff in Gr.
  rewrite (leb_zero_ltb _ Nbal) in Gb. apply negb_false_iff in Gb.
  rewrite (leb_zero_ltb _ Nmul) in Gm. apply negb_false_iff in Gm.
  split; [|now repeat split].
  apply sign_clear_leb_zero; [|exact N].
  rewrite mul_spec. apply SFmul_sign_clear; [|reflexivity].
  rewrite div_spec. apply SFdiv_sign_clear; [now apply ltb_zero_sign_clear|].
  rewrite mul_spec. apply SFmul_sign_clear; now apply ltb_zero_sign_clear.
Qed.

Lemma SFcompare_antisym (x y : spec_float) :
  SFcompare y x = option_map CompOpp (SFcompare x y).
Proof.
  destruct x as [sx|sx| |sx mx ex], y as [sy|sy| |sy my ey];
    try destruct sx; try destruct sy; try reflexivity;
    cbn [SFcompare option_map]; rewrite (Z.compare_antisym ex ey);
    destruct (Z.compare ex ey); cbn [CompOpp]; try reflexivity;
    pose proof (Pos.compare_cont_antisym mx my Eq) as A; cbn [CompOpp] in A;
    rewrite <- A; destruct (Pos.compare_cont Eq mx my); reflexivity.
Qed.

Lemma ltb_false_leb (x y : float) :
  is_nan x = false -> is_nan y = false -> (x <? y) = false -> (y <=? x) = true.
Proof.
  rewrite !is_nan_spec, FloatAxioms.ltb_spec, FloatAxioms.leb_spec.
  unfold SFltb, SFleb. rewrite (SFcompare_antisym (Prim2SF x) (Prim2SF y)).
  destruct (Prim2SF x) as [sx|sx| |sx mx ex], (Prim2SF y) as [sy|sy| |sy my ey];
    try discriminate; intros _ _;
    match goal with
    | |- context [SFcompare ?a ?b] => destruct (SFcompare a b) as [[ | | ]|] eqn:E
    end; cbn [option_map CompOpp]; try discriminate; try reflexivity;
    try destruct sx; try destruct sy; discriminate.
Qed.

Lemma sub_not_nan (x y : float) :
  is_nan (x - y) = false -> is_nan x = false /\ is_nan y = false.
Proof.
  rewrite !is_nan_spec, sub_spec.
  destruct (Prim2SF x), (Prim2SF y); try discriminate; split; reflexivity.
Qed.

Lemma ltb_not_nan (x y : float) : (x <? y) = true -> is_nan y = false.
Proof.
  rewrite is_nan_spec, FloatAxioms.ltb_spec.
  destruct (Prim2SF x), (Prim2SF y); try discriminate; reflexivity.
Qed.

(** A positive difference [y - x] has [x] below [y]. *)
Lemma sub_pos_ltb (x y : float) : (0 <? y - x) = true -> (x <? y) = true.
Proof.
  intros H. pose proof (ltb_not_nan _ _ H) as N.
  destruct (sub_not_nan _ _ N) as [Ny Nx].
  destruct (x <? y) eqn:L; [reflexivity|]. exfalso.
  pose proof (sub_nonpos _ _ (ltb_false_leb _ _ Nx Ny L)) as Hs.
  rewrite N, orb_false_r, (leb_zero_ltb _ N), H in Hs. discriminate.
Qed.

(** X8. A suggested risk that is defined is the number
    [(target - currentBal) / (currentBal * multiplier) * 100], it is finite
    and not negative, and it is defined only for a balance above 0 and
    below the target, and a multiplier above 0. *)
Theorem calculateNextRisk_defined (currentBal target multiplier risk : float) :
  calculateNextRisk currentBal target multiplier = Some risk ->
  risk = (target - currentBal) / (currentBal * multiplier) * 100
  /\ isFinite risk = true
  /\ (0 <=? risk) = true
  /\ (0 <? currentBal) = true
  /\ (currentBal <? target) = true
  /\ (0 <? multiplier) = true.
Proof.
  intros H.
  destruct (calculateNextRisk_Some _ _ _ _ H) as (Hr & Hf & Hp & Hrem & Hbal & Hmul).
  repeat split; try assumption.
  now apply sub_pos_ltb.
Qed.

(** Balance 10650, target 10800, multiplier 6.5. *)
Lemma calculateNextRisk_defined_witness :
  calculateNextRisk 10650 10800 6.5 = Some 0.21668472372697722
  /\ isFinite 0.21668472372697722 = true
  /\ (0 <=? 0.21668472372697722) = true
  /\ (10650 <? 10800) = true.
Proof.
  split; [reflexivity|].
  destruct (calculateNextRisk_defined 10650 10800 6.5 0.21668472372697722 eq_refl)
    as (_ & Hf & Hp & _ & Hlt & _).
  exact (conj Hf (conj Hp Hlt)).
Defined.

Lemma append_percent_not_dash (text : string) : (text ++ "%")%string <> "-"%string.
Proof.
  destruct text as [|c [|d rest]]; cbn; intros H; try discriminate.
Qed.

(** X9. On a suggested risk the guards of [formatPercentagePrecise] against
    NaN and infinity never fire: the cell shows a dash when the suggestion
    is undefined or is 0 (a quotient too small for a binary64 number), and
    the number with three decimals and a percent sign otherwise, which is
    never the dash. *)
Theorem formatPercentagePrecise_suggestion (toFixed3 : float -> string)
    (currentBal target multiplier : float) :
  formatPercentagePrecise toFixed3 (calculateNextRisk currentBal target multiplier)
  = match calculateNextRisk currentBal target multiplier with
    | Some risk => if 0 <? risk then (toFixed3 risk ++ "%")%string else "-"%string
    | None => "-"%string
    end
  /\ (formatPercentagePrecise toFixed3 (calculateNextRisk currentBal target multiplier)
      = "-"%string
      <-> calculateNextRisk currentBal target multiplier = None
          \/ exists risk,
               calculateNextRisk currentBal target multiplier = Some risk
               /\ (risk =? 0) = true).
Proof.
  destruct (calculateNextRisk currentBal target multiplier) as [risk|] eqn:E.
  - destruct (calculateNextRisk_Some _ _ _ _ E) as (_ & Hf & Hp & _).
    pose proof (finite_not_nan _ Hf) as N.
    assert (Hfmt : formatPercentagePrecise toFixed3 (Some risk)
                   = if 0 <? risk then (toFixed3 risk ++ "%")%string else "-"%string).
    { cbn [formatPercentagePrecise]. unfold isNaN. rewrite N, Hf. cbn [negb orb].
      rewrite (leb_zero_ltb _ N). now destruct (0 <? risk). }
    split; [exact Hfmt|]. rewrite Hfmt.
    assert (Hz : (risk =? 0) = negb (0 <? risk)).
    { revert N Hp. rewrite is_nan_spec, FloatAxioms.eqb_spec, FloatAxioms.ltb_spec,
        FloatAxioms.leb_spec, Prim2SF_zero.
      destruct (Prim2SF risk) as [s|s| |s m e]; try destruct s; try discriminate;
        reflexivity. }
    destruct (0 <? risk) eqn:L; cbn [negb] in Hz.
    + split.
      * intros H. now apply append_percent_not_dash in H.
      * intros [H | (r & Hr & Hr0)]; [discriminate|].
        apply Some_float_inj in Hr. subst r. congruence.
    + split; [|reflexivity].
      intros _. right. exists risk. split; [reflexivity | exact Hz].
  - split; [reflexivity|]. split; [now left | reflexivity].
Qed.

(** * The handlers on the trade list *)

(** A [map] that replaces the elements passing a test changes the list
    exactly when some element passes it, provided a replaced element
    differs from the original. *)
Lemma map_if_unchanged (A : Type) (p : A -> bool) (f : A -> A) (l : list A) :
  (forall x, p x = true -> f x <> x) ->
  (map (fun x => if p x then f x else x) l = l <-> existsb p l = false).
Proof.
  intros Hf. induction l as [|a l IH].
  - split; reflexivity.
  - cbn [map existsb]. destruct (p a) eqn:Pa; cbn [orb].
    + split; [|discriminate]. intros H. exfalso.
      apply (Hf a Pa). congruence.
    + rewrite <- IH. split; intros H; [congruence | now rewrite H].
Qed.

Lemma map_if_nth (A : Type) (p : A -> bool) (f : A -> A) (l : list A) (i : nat) (x : A) :
  nth_error l i = Some x ->
  nth_error (map (fun x => if p x then f x else x) l) i = Some (if p x then f x else x).
Proof.
  intros H. now rewrite nth_error_map, H.
Qed.

Lemma map_if_keeps (A B : Type) (g : A -> B) (p : A -> bool) (f : A -> A) (l : list A) :
  (forall x, g (f x) = g x) ->
  map g (map (fun x => if p x then f x else x) l) = map g l.
Proof.
  intros Hg. rewrite map_map. apply map_ext. intros x. destruct (p x); [apply Hg | reflexivity].
Qed.

Lemma outcome_eqb_eq (a b : TradeOutcome) : outcome_eqb a b = true <-> a = b.
Proof. destruct a, b; split; intros H; try reflexivity; discriminate. Qed.

Lemma setOutcome_same (trade : Trade) : setOutcome trade (outcome trade) = trade.
Proof. now destruct trade. Qed.

Lemma outcomeDiffers_changes id' newOutcome trade :
  outcomeDiffers id' newOutcome trade = true -> setOutcome trade newOutcome <> trade.
Proof.
  unfold outcomeDiffers. intros H E. apply andb_true_iff in H. destruct H as [_ H].
  apply negb_true_iff in H.
  assert (Ho : outcome trade = newOutcome) by (rewrite <- E; reflexivity).
  apply outcome_eqb_eq in Ho. congruence.
Qed.

(** X10. [handleUpdateTradeOutcome] keeps the length and the order of the
    list, every trade of another identity, and every field but the outcome
    of a trade of the given identity, whose outcome becomes the new one.
    The notice is shown exactly when the list has changed: choosing the
    outcome a trade already has, or an identity no trade has, changes
    nothing and shows nothing. *)
Theorem handleUpdateTradeOutcome_frame (id' : string) (newOutcome : TradeOutcome)
    (trades : list Trade) :
  List.length (fst (handleUpdateTradeOutcome id' newOutcome trades)) = List.length trades
  /\ (forall i trade,
         nth_error trades i = Some trade ->
         nth_error (fst (handleUpdateTradeOutcome id' newOutcome trades)) i
         = Some (if String.eqb (id trade) id' then setOutcome trade newOutcome else trade))
  /\ (fst (handleUpdateTradeOutcome id' newOutcome trades) = trades
      <-> snd (handleUpdateTradeOutcome id' newOutcome trades) = [])
  /\ (snd (handleUpdateTradeOutcome id' newOutcome trades) = []
      \/ snd (handleUpdateTradeOutcome id' newOutcome trades)
         = [toast_info "Trade outcome updated and log recalculated."]).
Proof.
  cbn [handleUpdateTradeOutcome fst snd]. split; [apply length_map|]. split; [|split].
  - intros i trade H. rewrite (map_if_nth _ _ _ _ _ _ H). f_equal.
    unfold outcomeDiffers. destruct (String.eqb (id trade) id'); [|reflexivity].
    cbn [andb]. destruct (outcome_eqb (outcome trade) newOutcome) eqn:E; [|reflexivity].
    apply outcome_eqb_eq in E. subst newOutcome. cbn [negb]. now rewrite setOutcome_same.
  - rewrite (map_if_unchanged _ _ _ trades (outcomeDiffers_changes id' newOutcome)).
    destruct (existsb (outcomeDiffers id' newOutcome) trades); split; intros H;
      try reflexivity; discriminate.
  - destruct (existsb (outcomeDiffers id' newOutcome) trades); [now right | now left].
Qed.




Lemma NoDup_map_filter (A B : Type) (g : A -> B) (p : A -> bool) (l : list A) :
  NoDup (map g l) -> NoDup (map g (filter p l)).
Proof.
  induction l as [|a l IH]; intros H; [exact H|].
  cbn [map] in H. apply NoDup_cons_iff in H. destruct H as [Hnot Hnd].
  cbn [filter]. destruct (p a); [|now apply IH].
  cbn [map]. apply NoDup_cons; [|now apply IH].
  intros Hin. apply Hnot. apply in_map_iff in Hin. destruct Hin as (x & Hx & Hin).
  apply filter_In in Hin. apply in_map_iff. exists x. now split.
Qed.

Lemma id_setField trade field v : id (setField trade field v) = id trade.
Proof. now destruct field. Qed.

Lemma handleUpdateTradeValue_ids parseFloat id' field value trades :
  map id (fst (handleUpdateTradeValue parseFloat id' field value trades)) = map id trades.
Proof.
  unfold handleUpdateTradeValue.
  destruct (isNaN (parseFloat value) || (parseFloat value <? 0)); [reflexivity|].
  cbn [fst]. apply map_if_keeps. intros x. apply id_setField.
Qed.

(** X12. Every operation on the ledger keeps the identities pairwise
    distinct: appending a trade under an identity no trade has, deleting,
    editing a value, choosing an outcome, and recalculating (the last three
    keep the very list of identities). *)
Theorem operations_keep_ids_distinct (cfg : Config) (trades : list Trade) :
  NoDup (map id trades) ->
  (forall newId, ~ In newId (map id trades) ->
                 NoDup (map id (fst (handleAddTrade cfg newId trades))))
  /\ (forall id', NoDup (map id (fst (handleDeleteTrade id' trades))))
  /\ (forall parseFloat id' field value,
         NoDup (map id (fst (handleUpdateTradeValue parseFloat id' field value trades))))
  /\ (forall id' newOutcome,
         NoDup (map id (fst (handleUpdateTradeOutcome id' newOutcome trades))))
  /\ NoDup (map id (recalculateTrades cfg trades)).
Proof.
  intros Hnd. split; [|split; [|split; [|split]]].
  - intros newId Hnew. cbn [handleAddTrade fst]. rewrite map_app. cbn [map id].
    apply NoDup_app; [exact Hnd | | ].
    + repeat constructor. intros [].
    + intros x Hx [<- | []]. now apply Hnew.
  - intros id'. cbn [handleDeleteTrade fst]. now apply NoDup_map_filter.
  - intros parseFloat id' field value. now rewrite handleUpdateTradeValue_ids.
  - intros id' newOutcome. cbn [handleUpdateTradeOutcome fst].
    rewrite map_if_keeps; [exact Hnd | reflexivity].
  - unfold recalculateTrades. rewrite recalculateFrom_map_input; [exact Hnd | reflexivity].
Qed.

(** The ledger of three: a fourth trade under the identity "d". *)
Lemma operations_keep_ids_distinct_witness :
  NoDup (map id ledger3)
  /\ ~ In "d"%string (map id ledger3)
  /\ NoDup (map id (fst (handleAddTrade cfg0 "d" ledger3)))
  /\ NoDup (map id (fst (handleDeleteTrade "b" ledger3))).
Proof.
  split; [exact ledger3_ids_distinct|].
  assert (Hnew : ~ In "d"%string (map id ledger3)) by (cbn; intuition discriminate).
  split; [exact Hnew|].
  destruct (operations_keep_ids_distinct cfg0 ledger3 ledger3_ids_distinct)
    as (Hadd & Hdel & _).
  exact (conj (Hadd "d"%string Hnew) (Hdel "b"%string)).
Defined.

(** X13. [handleDeleteTrade] keeps, in their order, exactly the trades whose
    identity is not the given one: no trade of that identity is left,
    deleting again changes nothing more, and an identity no trade has leaves
    the list as it is, the notice of a deletion being shown all the same. *)
Theorem handleDeleteTrade_removes (id' : string) (trades : list Trade) :
  (forall trade,
      In trade (fst (handleDeleteTrade id' trades)) <-> In trade trades /\ id trade <> id')
  /\ ~ In id' (map id (fst (handleDeleteTrade id' trades)))
  /\ fst (handleDeleteTrade id' (fst (handleDeleteTrade id' trades)))
     = fst (handleDeleteTrade id' trades)
  /\ (~ In id' (map id trades) -> fst (handleDeleteTrade id' trades) = trades)
  /\ snd (handleDeleteTrade id' trades)
     = [toast_warning "Trade deleted and log recalculated."].
Proof.
  cbn [handleDeleteTrade fst snd].
  assert (Hin : forall trade,
             In trade (filter (fun t => negb (String.eqb (id t) id')) trades)
             <-> In trade trades /\ id trade <> id').
  { intros trade. rewrite filter_In, negb_true_iff.
    destruct (String.eqb_spec (id trade) id'); split; intros [H1 H2];
      (split; [exact H1|]); try discriminate; try assumption; try reflexivity.
    contradiction. }
  assert (Hnot : ~ In id' (map id (filter (fun t => negb (String.eqb (id t) id')) trades))).
  { intros H. apply in_map_iff in H. destruct H as (t & Hid & Ht).
    apply Hin in Ht. now destruct Ht. }
  split; [exact Hin|]. split; [exact Hnot|].
  split; [now apply filter_other_ids|].
  split; [apply filter_other_ids | reflexivity].
Qed.

(** * The settings *)










(** * The text of a setting *)

Lemma dot_not_digit : isDigit "."%char = false.
Proof. reflexivity. Qed.

Lemma skipDigits_allDigits (a rest : string) :
  allDigits a = true -> skipDigits (a ++ rest) = skipDigits rest.
Proof.
  induction a as [|c a IH]; intros H; [reflexivity|].
  cbn [allDigits] in H. apply andb_true_iff in H. destruct H as [Hc Ha].
  cbn [append skipDigits]. rewrite Hc. now apply IH.
Qed.

Lemma skipDigits_nil_allDigits (text : string) :
  skipDigits text = EmptyString <-> allDigits text = true.
Proof.
  induction text as [|c text IH]; [split; reflexivity|].
  cbn [skipDigits allDigits]. destruct (isDigit c); cbn [andb]; [exact IH|].
  split; discriminate.
Qed.

(** A text is its longest run of digits followed by what [skipDigits]
    leaves. *)
Lemma skipDigits_split (text : string) :
  exists a, allDigits a = true /\ text = (a ++ skipDigits text)%string.
Proof.
  induction text as [|c text (a & Ha & IH)].
  - exists EmptyString. split; reflexivity.
  - cbn [skipDigits]. destruct (isDigit c) eqn:Hc.
    + exists (String c a). cbn [allDigits append]. rewrite Hc, Ha. split; [reflexivity|].
      now rewrite <- IH.
    + exists EmptyString. split; reflexivity.
Qed.

Lemma matchesPositiveNumber_shape (value : string) :
  matchesPositiveNumber value = true
  <-> exists a b,
        allDigits a = true /\ allDigits b = true
        /\ (value = (a ++ b)%string \/ value = (a ++ "." ++ b)%string).
Proof.
  unfold matchesPositiveNumber. split.
  - intros H.
    destruct (skipDigits_split value) as (a & Ha & Hv).
    assert (Hb : allDigits (skipDot (skipDigits value)) = true).
    { apply skipDigits_nil_allDigits.
      destruct (skipDigits (skipDot (skipDigits value))); [reflexivity | discriminate]. }
    exists a, (skipDot (skipDigits value)). split; [exact Ha|]. split; [exact Hb|].
    destruct (skipDigits value) as [|c rest] eqn:E.
    + left. exact Hv.
    + cbn [skipDot] in *. destruct (Ascii.eqb_spec c "."%char) as [-> | Hc].
      * right. exact Hv.
      * left. exact Hv.
  - intros (a & b & Ha & Hb & [-> | ->]).
    + rewrite (skipDigits_allDigits a b Ha).
      apply skipDigits_nil_allDigits in Hb. rewrite Hb. reflexivity.
    + rewrite (skipDigits_allDigits a _ Ha).
      cbn [append skipDigits]. rewrite dot_not_digit. cbn [skipDot].
      rewrite Ascii.eqb_refl.
      apply skipDigits_nil_allDigits in Hb. now rewrite Hb.
Qed.

(** X15. [handlePositiveNumberChange] takes over the text typed exactly when
    it is a run of digits, or two runs of digits with one dot between them
    (either run may be empty); any other text, one with a sign, an
    exponent or a letter, leaves the field as it was. *)
Theorem handlePositiveNumberChange_accepts (current value : string) :
  ((exists a b,
       allDigits a = true /\ allDigits b = true
       /\ (value = (a ++ b)%string \/ value = (a ++ "." ++ b)%string)) ->
   handlePositiveNumberChange current value = value)
  /\ (~ (exists a b,
           allDigits a = true /\ allDigits b = true
           /\ (value = (a ++ b)%string \/ value = (a ++ "." ++ b)%string)) ->
      handlePositiveNumberChange current value = current).
Proof.
  unfold handlePositiveNumberChange. split.
  - intros H. apply matchesPositiveNumber_shape in H. rewrite H.
    now rewrite orb_true_r.
  - intros H.
    destruct (matchesPositiveNumber value) eqn:M.
    + exfalso. apply H. now apply matchesPositiveNumber_shape.
    + rewrite orb_false_r. destruct (String.eqb_spec value ""); [|reflexivity].
      subst value. discriminate.
Qed.

(** "10.5" is taken over, "-5" and "1e5" are not. *)
Lemma handlePositiveNumberChange_accepts_witness :
  handlePositiveNumberChange "10000" "10.5" = "10.5"%string
  /\ handlePositiveNumberChange "10000" "-5" = "10000"%string
  /\ handlePositiveNumberChange "10000" "1e5" = "10000"%string.
Proof.
  split.
  - apply (proj1 (handlePositiveNumberChange_accepts "10000" "10.5")).
    exists "10"%string, "5"%string. repeat split. now right.
  - split; reflexivity.
Defined.

(** * The table footer *)

Lemma is_nan_sub_r (x y : float) : is_nan y = true -> is_nan (x - y) = true.
Proof.
  rewrite !is_nan_spec, sub_spec.
  destruct (Prim2SF x), (Prim2SF y); try discriminate; reflexivity.
Qed.

(** X16. On a recalculated ledger that is not empty, the distance to the
    target in the table footer, when it is a number, is the distance to
    target of the last row. *)
Theorem distanceToTargetFinal_is_last_row (cfg : Config) (ts earlier : list Trade)
    (row : Trade) :
  recalculateTrades cfg ts = (earlier ++ [row])%list ->
  is_nan (distanceToTargetFinal cfg (recalculateTrades cfg ts)) = false ->
  distanceToTarget row = Some (distanceToTargetFinal cfg (recalculateTrades cfg ts)).
Proof.
  intros H. unfold distanceToTargetFinal.
  rewrite H, currentBalance_lastBalance, lastBalance_snoc.
  destruct (recalculateTrades_last _ _ _ _ H) as (bal & t & k & ->).
  unfold recalculateCallback, calculateTradeRow.
  cbn [fst accountBalance distanceToTarget ToNumber].
  set (raw := bal + _). unfold isNaN.
  destruct (is_nan raw) eqn:N.
  - intros _. now rewrite (is_nan_sub_r _ _ N).
  - intros Hd. now rewrite Hd.
Qed.

(** The scenario: 150 to go, in the row and in the footer. *)
Lemma distanceToTargetFinal_is_last_row_witness :
  recalculateTrades cfg0 [trade0] = ([] ++ [fst (recalculateCallback cfg0 10000 trade0 0)])%list
  /\ is_nan (distanceToTargetFinal cfg0 (recalculateTrades cfg0 [trade0])) = false
  /\ distanceToTargetFinal cfg0 (recalculateTrades cfg0 [trade0]) = 150
  /\ distanceToTarget (fst (recalculateCallback cfg0 10000 trade0 0)) = Some 150.
Proof.
  split; [reflexivity|]. split; [reflexivity|]. split; [reflexivity|].
  exact (distanceToTargetFinal_is_last_row cfg0 [trade0] [] _ eq_refl eq_refl).
Defined.
